(** * Omni-Chat: the conversation controller and the streaming service

    A shallow embedding of [App] (the React component of the chat client)
    and of the Gemini service module ([createChatSession],
    [fileToGenerativePart], [sendMessageStream]).

    The component is event driven and its send handler is an [async]
    function: it suspends while the attached image is encoded and while
    the response stream is iterated.  The embedding therefore is a
    transition system.  A state holds the React state variables, the
    session ref, the suspended invocations of [handleSendMessage] and a
    log of the effects on the outside world; an event is a user action or
    the resumption of a suspended invocation.  Values the browser draws
    ([crypto.randomUUID()], [Date.now()], [URL.createObjectURL]) are
    carried by the event that draws them.

    JavaScript strings are modelled by [string], one character per code
    unit below 256. *)

From Stdlib Require Import ZArith Ascii String.
From stdpp Require Import base option list strings.

(** ** JavaScript values *)

(** Truthiness of a string: every string but the empty one. *)
Definition truthy (s : string) : bool := negb (String.eqb s "").

(** Truthiness of [string | undefined] and of [string | null]. *)
Definition truthy_opt (o : option string) : bool :=
  match o with
  | Some s => truthy s
  | None => false
  end.

(** [a || b] on strings. *)
Definition or_else (a b : string) : string := if truthy a then a else b.

(** [WhiteSpace] and [LineTerminator] code units below 256: TAB, LF, VT, FF,
    CR, SP and NBSP. *)
Definition isWhiteSpace (c : ascii) : bool :=
  match nat_of_ascii c with
  | 9 | 10 | 11 | 12 | 13 | 32 | 160 => true
  | _ => false
  end.

Fixpoint trimStart (s : string) : string :=
  match s with
  | String c s' => if isWhiteSpace c then trimStart s' else s
  | EmptyString => EmptyString
  end.

Fixpoint trimEnd (s : string) : string :=
  match s with
  | String c s' =>
      match trimEnd s' with
      | EmptyString => if isWhiteSpace c then EmptyString else String c EmptyString
      | r => String c r
      end
  | EmptyString => EmptyString
  end.

(** [String.prototype.trim]. *)
Definition trim (s : string) : string := trimEnd (trimStart s).

(** [String.prototype.startsWith]. *)
Definition startsWith (s p : string) : bool := String.prefix p s.

(** [String.prototype.split] with a one-character separator. *)
Fixpoint split (sep : ascii) (s : string) : list string :=
  match s with
  | EmptyString => [EmptyString]
  | String c s' =>
      if Ascii.eqb c sep then EmptyString :: split sep s'
      else match split sep s' with
           | h :: t => String c h :: t
           | [] => [String c EmptyString]
           end
  end.

(** ** types.ts *)

Inductive Role := USER | MODEL.

Record Message := {
  id : string;
  role : Role;
  text : string;
  image : option string;
  timestamp : Z;
  isError : option bool
}.

Inductive GeminiModel := FLASH | PRO.

#[global] Instance GeminiModel_eq_dec : EqDecision GeminiModel.
Proof. solve_decision. Defined.

(** ** The provider SDK, as far as the client sees it *)

(** A [Chat] object.  [chat_handle] is the object's identity: the number of
    sessions [ai.chats.create] had created before it. *)
Record Chat := {
  chat_handle : nat;
  chat_model : GeminiModel;
  chat_systemInstruction : string
}.

(** A [File] of the file picker: its [type] and what a [FileReader] reports
    for [readAsDataURL], [None] when the read fails. *)
Record File := {
  file_type : string;
  reader_result : option string
}.

(** The argument of [chat.sendMessageStream]. *)
Inductive Part :=
| TextPart (t : string)
| InlineData (mimeType data : string).

Inductive Request :=
| PlainMessage (message : string)
| PartsMessage (role : string) (parts : list Part).

(** A [GenerateContentResponse]: only its [text] getter is read. *)
Record Chunk := { chunk_text : option string }.

(** How an awaited promise settles. *)
Inductive Settled (A : Type) :=
| Resolved (a : A)
| Rejected.
Arguments Resolved {A} a.
Arguments Rejected {A}.

(** ** services/gemini *)

Definition defaultSystemInstruction : string :=
  "You are a helpful, witty, and enthusiastic AI assistant powered by Gemini 3.0. You love to help users with their questions and creative tasks.".

(** [createChatSession], given the number of sessions created so far. *)
Definition createChatSession (created : nat) (model : GeminiModel)
    (systemInstruction : option string) : Chat :=
  {| chat_handle := created;
     chat_model := model;
     chat_systemInstruction :=
       if truthy_opt systemInstruction
       then default defaultSystemInstruction systemInstruction
       else defaultSystemInstruction |}.

(** [fileToGenerativePart]: the second piece of the data URL split at its
    commas, [undefined] when there is no comma; the promise rejects when the
    reader fails. *)
Definition fileToGenerativePart (file : File) : Settled (option string) :=
  match reader_result file with
  | Some base64String => Resolved (split "," base64String !! 1)
  | None => Rejected
  end.

(** The request [sendMessageStream] hands to the session. *)
Definition sendMessageStream_request (message : string)
    (imageBase64 : option string) (mimeType : option string) : Request :=
  let mimeType := default "image/jpeg" mimeType in
  match imageBase64 with
  | Some data =>
      if truthy data
      then PartsMessage "user" [TextPart message; InlineData mimeType data]
      else PlainMessage message
  | None => PlainMessage message
  end.

(** One turn of the [for await] loop of [sendMessageStream]: the fragment
    yielded for an upstream chunk, if any. *)
Definition sendMessageStream_yield (c : Chunk) : option string :=
  match chunk_text c with
  | Some t => if truthy t then Some t else None
  | None => None
  end.

(** The fragments [sendMessageStream] yields over a run of upstream chunks. *)
Definition sendMessageStream_yields (cs : list Chunk) : list string :=
  omap sendMessageStream_yield cs.

(** ** App: the state of the component *)

(** The outside world, as far as the component acts on it. *)
Record World := {
  alerts : list string;              (* alert(...) *)
  consoleErrors : list string;       (* console.error(...) *)
  revokedURLs : list string;         (* URL.revokeObjectURL(...) *)
  chatsCreated : nat;                (* calls of ai.chats.create *)
  requests : list (Chat * Request)   (* calls of chat.sendMessageStream *)
}.

(** Where a suspended invocation of [handleSendMessage] waits. *)
Inductive Phase :=
| Encoding                                              (* await fileToGenerativePart *)
| Streaming (modelMessageId : string) (fullResponse : string)  (* for await *)
| Returned.

(** An invocation of [handleSendMessage]: the variables it closed over and
    its program point. *)
Record Task := {
  userMessageId : string;
  currentText : string;
  currentImage : option File;
  currentPreview : option string;
  closureModel : GeminiModel;         (* selectedModel of the render that made the handler *)
  phase : Phase
}.

Record AppState := {
  messages : list Message;
  inputValue : string;
  isLoading : bool;
  selectedModel : GeminiModel;
  selectedImage : option File;
  imagePreview : option string;
  chatSessionRef : option Chat;
  tasks : list Task;
  world : World
}.

Definition set_messages (f : list Message -> list Message) (s : AppState) : AppState :=
  {| messages := f (messages s); inputValue := inputValue s; isLoading := isLoading s;
     selectedModel := selectedModel s; selectedImage := selectedImage s;
     imagePreview := imagePreview s; chatSessionRef := chatSessionRef s;
     tasks := tasks s; world := world s |}.

Definition set_inputValue (v : string) (s : AppState) : AppState :=
  {| messages := messages s; inputValue := v; isLoading := isLoading s;
     selectedModel := selectedModel s; selectedImage := selectedImage s;
     imagePreview := imagePreview s; chatSessionRef := chatSessionRef s;
     tasks := tasks s; world := world s |}.

Definition set_isLoading (b : bool) (s : AppState) : AppState :=
  {| messages := messages s; inputValue := inputValue s; isLoading := b;
     selectedModel := selectedModel s; selectedImage := selectedImage s;
     imagePreview := imagePreview s; chatSessionRef := chatSessionRef s;
     tasks := tasks s; world := world s |}.

Definition set_selectedModel (m : GeminiModel) (s : AppState) : AppState :=
  {| messages := messages s; inputValue := inputValue s; isLoading := isLoading s;
     selectedModel := m; selectedImage := selectedImage s;
     imagePreview := imagePreview s; chatSessionRef := chatSessionRef s;
     tasks := tasks s; world := world s |}.

Definition set_selectedImage (f : option File) (s : AppState) : AppState :=
  {| messages := messages s; inputValue := inputValue s; isLoading := isLoading s;
     selectedModel := selectedModel s; selectedImage := f;
     imagePreview := imagePreview s; chatSessionRef := chatSessionRef s;
     tasks := tasks s; world := world s |}.

Definition set_imagePreview (u : option string) (s : AppState) : AppState :=
  {| messages := messages s; inputValue := inputValue s; isLoading := isLoading s;
     selectedModel := selectedModel s; selectedImage := selectedImage s;
     imagePreview := u; chatSessionRef := chatSessionRef s;
     tasks := tasks s; world := world s |}.

Definition set_chatSessionRef (c : option Chat) (s : AppState) : AppState :=
  {| messages := messages s; inputValue := inputValue s; isLoading := isLoading s;
     selectedModel := selectedModel s; selectedImage := selectedImage s;
     imagePreview := imagePreview s; chatSessionRef := c;
     tasks := tasks s; world := world s |}.

Definition set_tasks (f : list Task -> list Task) (s : AppState) : AppState :=
  {| messages := messages s; inputValue := inputValue s; isLoading := isLoading s;
     selectedModel := selectedModel s; selectedImage := selectedImage s;
     imagePreview := imagePreview s; chatSessionRef := chatSessionRef s;
     tasks := f (tasks s); world := world s |}.

Definition set_world (f : World -> World) (s : AppState) : AppState :=
  {| messages := messages s; inputValue := inputValue s; isLoading := isLoading s;
     selectedModel := selectedModel s; selectedImage := selectedImage s;
     imagePreview := imagePreview s; chatSessionRef := chatSessionRef s;
     tasks := tasks s; world := f (world s) |}.

Definition alert (msg : string) : AppState -> AppState :=
  set_world (fun w =>
    {| alerts := alerts w ++ [msg]; consoleErrors := consoleErrors w;
       revokedURLs := revokedURLs w; chatsCreated := chatsCreated w;
       requests := requests w |}).

Definition console_error (msg : string) : AppState -> AppState :=
  set_world (fun w =>
    {| alerts := alerts w; consoleErrors := consoleErrors w ++ [msg];
       revokedURLs := revokedURLs w; chatsCreated := chatsCreated w;
       requests := requests w |}).

Definition revokeObjectURL (url : string) : AppState -> AppState :=
  set_world (fun w =>
    {| alerts := alerts w; consoleErrors := consoleErrors w;
       revokedURLs := revokedURLs w ++ [url]; chatsCreated := chatsCreated w;
       requests := requests w |}).

Definition chat_created : AppState -> AppState :=
  set_world (fun w =>
    {| alerts := alerts w; consoleErrors := consoleErrors w;
       revokedURLs := revokedURLs w; chatsCreated := S (chatsCreated w);
       requests := requests w |}).

Definition chat_sendMessageStream (chat : Chat) (r : Request) : AppState -> AppState :=
  set_world (fun w =>
    {| alerts := alerts w; consoleErrors := consoleErrors w;
       revokedURLs := revokedURLs w; chatsCreated := chatsCreated w;
       requests := requests w ++ [(chat, r)] |}).

(** ** App: the handlers *)

Definition welcomeText : string :=
  "Hi there! I'm your Gemini 3.0 powered assistant. I can see images and chat about almost anything. How can I help you today?".

Definition cleanSlateText : string := "Clean slate! Ready when you are.".

Definition errorText : string :=
  "Sorry, something went wrong. Please check your connection or API key.".

(** [startNewChat], as closed over the selected model [model]. *)
Definition startNewChat (model : GeminiModel) (s : AppState) : AppState :=
  chat_created
    (set_chatSessionRef
       (Some (createChatSession (chatsCreated (world s)) model None)) s).

(** The component after its first render and mount effect. *)
Definition initialState (now : Z) : AppState :=
  startNewChat FLASH
    {| messages :=
         [ {| id := "welcome"; role := MODEL; text := welcomeText;
              image := None; timestamp := now; isError := None |} ];
       inputValue := ""; isLoading := false; selectedModel := FLASH;
       selectedImage := None; imagePreview := None; chatSessionRef := None;
       tasks := [];
       world := {| alerts := []; consoleErrors := []; revokedURLs := [];
                   chatsCreated := 0; requests := [] |} |}.

(** A model button: [setSelectedModel], then the effect on [selectedModel],
    which runs only when the value changed. *)
Definition setSelectedModel (m : GeminiModel) (s : AppState) : AppState :=
  if decide (m = selectedModel s) then s
  else startNewChat m (set_selectedModel m s).

Definition handleClearChat (uuid : string) (now : Z) (s : AppState) : AppState :=
  startNewChat (selectedModel s)
    (set_messages
       (fun _ => [ {| id := uuid; role := MODEL; text := cleanSlateText;
                      image := None; timestamp := now; isError := None |} ]) s).

(** [handleFileSelect] on [e.target.files?.[0]]; [objectURL] is what
    [URL.createObjectURL] returns when it is called. *)
Definition handleFileSelect (file : option File) (objectURL : string)
    (s : AppState) : AppState :=
  match file with
  | Some f =>
      if negb (startsWith (file_type f) "image/")
      then alert "Please select an image file." s
      else set_imagePreview (Some objectURL) (set_selectedImage (Some f) s)
  | None => s
  end.

(** [clearImage], as closed over the preview [preview].  The reset of the
    file input element is not modelled. *)
Definition clearImage (preview : option string) (s : AppState) : AppState :=
  let s := set_selectedImage None s in
  let s := match preview with
           | Some u => if truthy u then revokeObjectURL u s else s
           | None => s
           end in
  set_imagePreview None s.

(** What an accepted send draws after its image is encoded: [Date.now()] of
    the user message, [crypto.randomUUID()] and [Date.now()] of the
    placeholder. *)
Record SendDraws := {
  userNow : Z;
  newModelMessageId : string;
  modelNow : Z
}.

(** The guard of [handleSendMessage]: [true] when the handler returns at
    once. *)
Definition send_rejected (s : AppState) : bool :=
  (negb (truthy (trim (inputValue s))) && negb (bool_decide (is_Some (selectedImage s))))
  || isLoading s.

(** The updater of the [for await] loop. *)
Definition streamUpdate (modelMessageId fullResponse : string)
    (prev : list Message) : list Message :=
  (fun msg =>
     if String.eqb (id msg) modelMessageId
     then {| id := id msg; role := role msg; text := fullResponse;
             image := image msg; timestamp := timestamp msg;
             isError := isError msg |}
     else msg) <$> prev.

(** The updater of the [catch] block. *)
Definition errorUpdate (modelMessageId : string)
    (prev : list Message) : list Message :=
  (fun msg =>
     if String.eqb (id msg) modelMessageId
     then {| id := id msg; role := role msg; text := errorText;
             image := image msg; timestamp := timestamp msg;
             isError := Some true |}
     else msg) <$> prev.

Definition with_phase (p : Phase) (k : Task) : Task :=
  {| userMessageId := userMessageId k; currentText := currentText k;
     currentImage := currentImage k; currentPreview := currentPreview k;
     closureModel := closureModel k; phase := p |}.

Definition set_phase (t : nat) (k : Task) (p : Phase) : AppState -> AppState :=
  set_tasks (fun ts => <[t := with_phase p k]> ts).

(** [handleSendMessage], the updates of the UI once the image is encoded:
    the user message is appended, the input and the attachment are reset,
    the loading flag is set and the empty placeholder is appended. *)
Definition sendMessage_append (k : Task) (d : SendDraws) (s : AppState) : AppState :=
  let newUserMessage :=
    {| id := userMessageId k; role := USER; text := currentText k;
       image := if truthy_opt (currentPreview k) then currentPreview k else None;
       timestamp := userNow d; isError := None |} in
  let s := set_messages (fun prev => prev ++ [newUserMessage]) s in
  let s := set_inputValue "" s in
  let s := clearImage (currentPreview k) s in
  let s := set_isLoading true s in
  let modelMessageId := newModelMessageId d in
  set_messages
    (fun prev => prev ++
       [ {| id := modelMessageId; role := MODEL; text := "";
            image := None; timestamp := modelNow d; isError := None |} ]) s.

(** [handleSendMessage], the [try] block up to the first suspension of its
    [for await] loop: the session is taken from the ref, created first when
    the ref is empty, and the stream is opened. *)
Definition sendMessage_open (t : nat) (k : Task) (imageBase64 : option string)
    (modelMessageId : string) (s : AppState) : AppState :=
  let '(chat, s) :=
    match chatSessionRef s with
    | Some chat => (chat, s)
    | None =>
        (createChatSession (chatsCreated (world s)) (closureModel k) None,
         startNewChat (closureModel k) s)
    end in
  let message :=
    or_else (currentText k)
      (match currentImage k with
       | Some _ => "What is in this image?"
       | None => "Hello"
       end) in
  let s := chat_sendMessageStream chat
             (sendMessageStream_request message imageBase64
                (file_type <$> currentImage k)) s in
  set_phase t k (Streaming modelMessageId "") s.

(** [handleSendMessage] from the end of the image encoding to the first
    suspension of the [for await] loop, for the invocation [k] stored at
    index [t]. *)
Definition sendMessage_resume (t : nat) (k : Task) (imageBase64 : option string)
    (d : SendDraws) (s : AppState) : AppState :=
  sendMessage_open t k imageBase64 (newModelMessageId d) (sendMessage_append k d s).

(** The variables an invocation of [handleSendMessage] closes over and copies
    on entry. *)
Definition closure (uuid : string) (s : AppState) : Task :=
  {| userMessageId := uuid; currentText := inputValue s;
     currentImage := selectedImage s; currentPreview := imagePreview s;
     closureModel := selectedModel s; phase := Encoding |}.

(** [handleSendMessage] up to its first suspension: the end of the handler
    when the guard holds, [await fileToGenerativePart] when an image is
    attached, the [for await] loop otherwise.

    The handler of the source is the closure of the last render.  Here it
    reads the state it is applied to, which therefore stands for the values
    of that render: the two agree whenever the component has rendered since
    the last update, as it has after every event of the user.  Right after a
    resumption ([ImageEncoded], [StreamChunk], [StreamDone], [StreamThrow])
    and before the next render they may differ, and a call of the handler in
    that window is outside what this function describes. *)
Definition handleSendMessage (uuid : string) (d : SendDraws)
    (s : AppState) : AppState :=
  if send_rejected s then s
  else
    let t := length (tasks s) in
    let k := closure uuid s in
    let s := set_tasks (fun ts => ts ++ [k]) s in
    match currentImage k with
    | Some _ => s
    | None => sendMessage_resume t k None d s
    end.

(** ** App as a transition system *)

Inductive Event :=
| SetInputValue (v : string)
| SetSelectedModel (m : GeminiModel)
| HandleClearChat (uuid : string) (now : Z)
| HandleFileSelect (file : option File) (objectURL : string)
| ClearImage
| HandleSendMessage (uuid : string) (d : SendDraws)
| ImageEncoded (t : nat) (d : SendDraws)
| StreamChunk (t : nat) (c : Chunk)
| StreamDone (t : nat)
| StreamThrow (t : nat).

(** The invocation at index [t] resumes from [await fileToGenerativePart]. *)
Definition imageEncoded (t : nat) (d : SendDraws) (s : AppState) : AppState :=
  match tasks s !! t with
  | Some k =>
      match phase k, currentImage k with
      | Encoding, Some file =>
          match fileToGenerativePart file with
          | Resolved imageBase64 => sendMessage_resume t k imageBase64 d s
          | Rejected =>
              set_phase t k Returned (console_error "Failed to process image" s)
          end
      | _, _ => s
      end
  | None => s
  end.

(** The session delivers a chunk to the stream of invocation [t]. *)
Definition streamChunk (t : nat) (c : Chunk) (s : AppState) : AppState :=
  match tasks s !! t with
  | Some k =>
      match phase k with
      | Streaming modelMessageId fullResponse =>
          match sendMessageStream_yield c with
          | Some chunk =>
              let fullResponse := fullResponse +:+ chunk in
              set_phase t k (Streaming modelMessageId fullResponse)
                (set_messages (streamUpdate modelMessageId fullResponse) s)
          | None => s
          end
      | _ => s
      end
  | None => s
  end.

(** The stream of invocation [t] is exhausted. *)
Definition streamDone (t : nat) (s : AppState) : AppState :=
  match tasks s !! t with
  | Some k =>
      match phase k with
      | Streaming _ _ => set_phase t k Returned (set_isLoading false s)
      | _ => s
      end
  | None => s
  end.

(** The session throws, when the stream of invocation [t] is opened or
    while it is read. *)
Definition streamThrow (t : nat) (s : AppState) : AppState :=
  match tasks s !! t with
  | Some k =>
      match phase k with
      | Streaming modelMessageId _ =>
          let s := console_error "Gemini API Error:" s in
          let s := console_error "Chat Error" s in
          let s := set_messages (errorUpdate modelMessageId) s in
          set_phase t k Returned (set_isLoading false s)
      | _ => s
      end
  | None => s
  end.

Definition step (s : AppState) (e : Event) : AppState :=
  match e with
  | SetInputValue v => set_inputValue v s
  | SetSelectedModel m => setSelectedModel m s
  | HandleClearChat uuid now => handleClearChat uuid now s
  | HandleFileSelect file objectURL => handleFileSelect file objectURL s
  | ClearImage => clearImage (imagePreview s) s
  | HandleSendMessage uuid d => handleSendMessage uuid d s
  | ImageEncoded t d => imageEncoded t d s
  | StreamChunk t c => streamChunk t c s
  | StreamDone t => streamDone t s
  | StreamThrow t => streamThrow t s
  end.

Definition run (s : AppState) (es : list Event) : AppState := foldl step s es.

(** ** Observations used by the statements *)

(** The placeholder the invocation at index [t] is writing to, when it is in
    its [for await] loop. *)
Definition placeholderOf (t : nat) (s : AppState) : option string :=
  match tasks s !! t with
  | Some k => match phase k with Streaming mid _ => Some mid | _ => None end
  | None => None
  end.

(** [F1 + F2 + ... + Fn]. *)
Definition concatenation (fragments : list string) : string :=
  foldr String.append "" fragments.

(** The events of one send, from the call of the handler to the first
    suspension of its [for await] loop, nothing else happening in between. *)
Definition sendEvents (s : AppState) (uuid : string) (d : SendDraws) : list Event :=
  HandleSendMessage uuid d ::
  match selectedImage s with
  | Some _ => [ImageEncoded (length (tasks s)) d]
  | None => []
  end.

(** A model message without image, as the send handler creates it. *)
Definition modelMessage (mid : string) (now : Z) (txt : string)
    (err : option bool) : Message :=
  {| id := mid; role := MODEL; text := txt; image := None;
     timestamp := now; isError := err |}.

(** The user message an accepted send appends. *)
Definition userMessage (uuid : string) (d : SendDraws) (s : AppState) : Message :=
  {| id := uuid; role := USER; text := inputValue s;
     image := if truthy_opt (imagePreview s) then imagePreview s else None;
     timestamp := userNow d; isError := None |}.

(** The session a resuming invocation talks to. *)
Definition sessionFor (k : Task) (s : AppState) : Chat :=
  match chatSessionRef s with
  | Some chat => chat
  | None => createChatSession (chatsCreated (world s)) (closureModel k) None
  end.

(** The request a resuming invocation makes. *)
Definition requestFor (k : Task) (imageBase64 : option string) : Request :=
  sendMessageStream_request
    (or_else (currentText k)
       (match currentImage k with
        | Some _ => "What is in this image?"
        | None => "Hello"
        end))
    imageBase64 (file_type <$> currentImage k).

(** What the encoding of the attached image resolves to, [None] when no image
    is attached. *)
Definition encodingOf (s : AppState) : option string :=
  match selectedImage s with
  | Some file =>
      match fileToGenerativePart file with
      | Resolved imageBase64 => imageBase64
      | Rejected => None
      end
  | None => None
  end.

(** The invocation at [t] is in its loop with accumulator [acc], and the
    list is [base] followed by the placeholder holding [acc]. *)
Definition streamingInto (t : nat) (mid : string) (now : Z) (base : list Message)
    (acc : string) (s : AppState) : Prop :=
  (exists k, tasks s !! t = Some k /\ phase k = Streaming mid acc)
  /\ messages s = base ++ [modelMessage mid now acc None].

(** The sequence of messages [after] is [before] with at most the messages
    of id [mid] rewritten: same length, same ids in the same order, and
    every message of another id is where and what it was. *)
Definition onlyRewritten (mid : option string) (before after : list Message) : Prop :=
  length after = length before
  /\ id <$> after = id <$> before
  /\ forall i msg, before !! i = Some msg -> mid <> Some (id msg) ->
       after !! i = Some msg.

(** The session in the ref is one [ai.chats.create] has already issued. *)
Definition sessionRef_allocated (s : AppState) : Prop :=
  forall chat, chatSessionRef s = Some chat ->
    chat_handle chat < chatsCreated (world s).

(** The event attaches an image to the input. *)
Definition attachesImage (e : Event) : bool :=
  match e with
  | HandleFileSelect (Some f) _ => startsWith (file_type f) "image/"
  | _ => false
  end.

(** No image is attached, no invocation waits for an encoding, no invocation
    is pending while the loading flag is unset, and at most one is pending. *)
Definition gated (s : AppState) : Prop :=
  selectedImage s = None
  /\ (forall t k, tasks s !! t = Some k -> phase k <> Encoding)
  /\ (isLoading s = false -> forall t k, tasks s !! t = Some k -> phase k = Returned)
  /\ (forall t1 t2 k1 k2, tasks s !! t1 = Some k1 -> tasks s !! t2 = Some k2 ->
        phase k1 <> Returned -> phase k2 <> Returned -> t1 = t2).

(** The event ends the stream of invocation [t], resets the message list,
    or calls the send handler again. *)
Definition interferes (t : nat) (e : Event) : bool :=
  match e with
  | HandleClearChat _ _ | HandleSendMessage _ _ => true
  | StreamDone t' | StreamThrow t' => Nat.eqb t' t
  | _ => false
  end.

(** The upstream chunks delivered to invocation [t] among the events [es]. *)
Definition chunksFor (t : nat) (es : list Event) : list Chunk :=
  omap (fun e => match e with
                 | StreamChunk t' c => if Nat.eqb t' t then Some c else None
                 | _ => None
                 end) es.

(** Invocation [t] is streaming into its placeholder, the loading flag is
    set, and every other invocation has returned. *)
Definition soleStream (t : nat) (mid : string) (now : Z) (base : list Message)
    (acc : string) (s : AppState) : Prop :=
  streamingInto t mid now base acc s
  /\ isLoading s = true
  /\ forall t' k', t' <> t -> tasks s !! t' = Some k' -> phase k' = Returned.

(** ** Concrete inputs *)

Definition draws1 : SendDraws :=
  {| userNow := 5; newModelMessageId := "m1"; modelNow := 6 |}.

Definition draws2 : SendDraws :=
  {| userNow := 7; newModelMessageId := "m2"; modelNow := 8 |}.

Definition pngFile : File :=
  {| file_type := "image/png";
     reader_result := Some "data:image/png;base64,QUJD" |}.

(** A PNG file of zero bytes. *)
Definition emptyPngFile : File :=
  {| file_type := "image/png";
     reader_result := Some "data:image/png;base64," |}.

Definition textFile : File :=
  {| file_type := "text/plain";
     reader_result := Some "data:text/plain;base64,QQ==" |}.

Definition textChunk (t : string) : Chunk := {| chunk_text := Some t |}.

(** The user has typed "Hello". *)
Definition helloState : AppState := step (initialState 0) (SetInputValue "Hello").

(** The user has typed two spaces. *)
Definition blankState : AppState := step (initialState 0) (SetInputValue "  ").

(** The user has attached [pngFile] and typed nothing. *)
Definition pngState : AppState :=
  step (initialState 0) (HandleFileSelect (Some pngFile) "blob:1").

(** The user has attached [emptyPngFile] and typed nothing. *)
Definition emptyPngState : AppState :=
  step (initialState 0) (HandleFileSelect (Some emptyPngFile) "blob:1").

(** ** The rest of the component *)

(** [handleKeyDown] on the [key] and [shiftKey] of the keyboard event; the
    draws are those of the [handleSendMessage] it may call. *)
Definition handleKeyDown (key : string) (shiftKey : bool) (uuid : string)
    (d : SendDraws) (s : AppState) : AppState :=
  if String.eqb key "Enter" && negb shiftKey
  then handleSendMessage uuid d s
  else s.

(** The [disabled] attribute of the send button. *)
Definition sendButton_disabled (s : AppState) : bool :=
  isLoading s
  || (negb (truthy (trim (inputValue s)))
      && negb (bool_decide (is_Some (selectedImage s)))).

(** What a message bubble shows (the expression under the image of the
    bubble): the text, or "Thinking..." for a model message without text
    while the loading flag is set, or nothing. *)
Definition bubbleContent (loading : bool) (msg : Message) : option string :=
  if truthy (text msg) then Some (text msg)
  else if loading && match role msg with MODEL => true | USER => false end
       then Some "Thinking..."
       else None.

(** ** Further observations *)

(** The character [c] occurs in [s]. *)
Fixpoint occurs (c : ascii) (s : string) : bool :=
  match s with
  | String x s' => Ascii.eqb x c || occurs c s'
  | EmptyString => false
  end.

(** Every character of [s] is white space. *)
Fixpoint allWhiteSpace (s : string) : bool :=
  match s with
  | String c s' => isWhiteSpace c && allWhiteSpace s'
  | EmptyString => true
  end.

(** The event replaces the session: a model button or the clear button. *)
Definition replacesSession (e : Event) : bool :=
  match e with
  | SetSelectedModel _ | HandleClearChat _ _ => true
  | _ => false
  end.

(** The event is a click on the clear button. *)
Definition clearsChat (e : Event) : bool :=
  match e with
  | HandleClearChat _ _ => true
  | _ => false
  end.

(** The ref holds the session created last, made for the selected model with
    the default instruction. *)
Definition sessionInvariant (s : AppState) : Prop :=
  exists chat,
    chatSessionRef s = Some chat
    /\ chat_model chat = selectedModel s
    /\ chat_systemInstruction chat = defaultSystemInstruction
    /\ S (chat_handle chat) = chatsCreated (world s).

(** The file has passed the check of [handleFileSelect]. *)
Definition imageFile (f : File) : Prop := startsWith (file_type f) "image/" = true.

(** The attached file and the files the pending invocations copied are image
    files, and a preview is kept exactly while a file is attached. *)
Definition attachmentInvariant (s : AppState) : Prop :=
  (forall f, selectedImage s = Some f -> imageFile f)
  /\ (is_Some (selectedImage s) <-> is_Some (imagePreview s))
  /\ (forall t k f, tasks s !! t = Some k -> currentImage k = Some f -> imageFile f).

(** What every request of the component looks like: a non-empty text, alone
    or followed by one inline image of an image type and with non-empty
    data. *)
Definition wellFormedRequest (r : Request) : Prop :=
  match r with
  | PlainMessage message => message <> ""
  | PartsMessage role parts =>
      role = "user"
      /\ exists message mimeType data,
           parts = [TextPart message; InlineData mimeType data]
           /\ message <> "" /\ startsWith mimeType "image/" = true /\ data <> ""
  end.

(** Every request made so far is well formed. *)
Definition requestsWellFormed (s : AppState) : Prop :=
  Forall (fun cr => wellFormedRequest cr.2) (requests (world s)).

(** The text part of a request. *)
Definition requestText (r : Request) : option string :=
  match r with
  | PlainMessage message => Some message
  | PartsMessage _ (TextPart message :: _) => Some message
  | PartsMessage _ _ => None
  end.

(** While the loading flag is set, some invocation is in its stream loop. *)
Definition loadingInvariant (s : AppState) : Prop :=
  isLoading s = true -> exists t mid, placeholderOf t s = Some mid.

(** The previews an accepted send revokes. *)
Definition revokedBySend (s : AppState) : list string :=
  match imagePreview s with
  | Some u => if truthy u then [u] else []
  | None => []
  end.

(** * Proofs *)

(** Reduce the projections of a state built with the setters. *)
Ltac state_simpl :=
  unfold set_phase, clearImage, startNewChat, chat_sendMessageStream,
    chat_created, console_error, revokeObjectURL, alert, set_world, set_tasks,
    set_chatSessionRef, set_imagePreview, set_selectedImage, set_selectedModel,
    set_isLoading, set_inputValue, set_messages in *;
  simpl in *.

(** Case analysis on the task an event is addressed to. *)
Ltac on_task s t k Hk :=
  destruct (tasks s !! t) as [k|] eqn:Hk.

(** ** Strings *)

Lemma append_empty_r (s : string) : s +:+ "" = s.
Proof.
  induction s as [|c s IH]; [reflexivity|].
  change (String c (s +:+ "") = String c s). now rewrite IH.
Qed.

Lemma append_assoc (a b c : string) : (a +:+ b) +:+ c = a +:+ (b +:+ c).
Proof.
  induction a as [|x a IH]; [reflexivity|].
  change (String x ((a +:+ b) +:+ c) = String x (a +:+ (b +:+ c))). now rewrite IH.
Qed.

Lemma truthy_of_trim (v : string) : truthy (trim v) = true -> truthy v = true.
Proof. destruct v; [discriminate | reflexivity]. Qed.

Lemma concatenation_yields_cons c cs :
  concatenation (sendMessageStream_yields (c :: cs))
  = concatenation (sendMessageStream_yields [c])
    +:+ concatenation (sendMessageStream_yields cs).
Proof.
  unfold sendMessageStream_yields. simpl.
  destruct (sendMessageStream_yield c); simpl; [|reflexivity].
  now rewrite append_assoc.
Qed.

(** Upstream chunks that all carry a non-empty text are yielded as they
    are. *)
Lemma yields_of_fragments (fragments : list string) :
  Forall (fun f => f <> "") fragments ->
  sendMessageStream_yields (textChunk <$> fragments) = fragments.
Proof.
  unfold sendMessageStream_yields.
  induction 1 as [|f fs Hf _ IH]; [reflexivity|].
  rewrite fmap_cons.
  change (omap sendMessageStream_yield (textChunk f :: (textChunk <$> fs)))
    with (match sendMessageStream_yield (textChunk f) with
          | Some y => y :: omap sendMessageStream_yield (textChunk <$> fs)
          | None => omap sendMessageStream_yield (textChunk <$> fs)
          end).
  rewrite IH. unfold sendMessageStream_yield, truthy. simpl.
  destruct (String.eqb_spec f ""); [contradiction | reflexivity].
Qed.

(** ** Rewriting the messages that carry one id *)

Section RewriteById.
Variable mid : string.
Variable g : Message -> Message.
Hypothesis g_id : forall msg, id (g msg) = id msg.

Let rewrite_ (prev : list Message) : list Message :=
  (fun msg => if String.eqb (id msg) mid then g msg else msg) <$> prev.

Lemma rewrite_ids prev : id <$> rewrite_ prev = id <$> prev.
Proof.
  unfold rewrite_. rewrite <- list_fmap_compose. apply list_fmap_ext.
  intros _ msg _. simpl. destruct (String.eqb (id msg) mid); auto.
Qed.

Lemma rewrite_other prev i msg :
  prev !! i = Some msg -> id msg <> mid -> rewrite_ prev !! i = Some msg.
Proof.
  intros Hi Hne. unfold rewrite_. rewrite list_lookup_fmap, Hi. simpl.
  destruct (String.eqb_spec (id msg) mid); [contradiction | reflexivity].
Qed.

Lemma rewrite_fresh prev : mid ∉ id <$> prev -> rewrite_ prev = prev.
Proof.
  intros Hfresh. unfold rewrite_. induction prev as [|msg prev IH]; [reflexivity|].
  rewrite fmap_cons, not_elem_of_cons in Hfresh. destruct Hfresh as [Hne Hfresh].
  rewrite fmap_cons, (IH Hfresh).
  destruct (String.eqb_spec (id msg) mid); [congruence | reflexivity].
Qed.
End RewriteById.

Lemma streamUpdate_length mid full prev :
  length (streamUpdate mid full prev) = length prev.
Proof. apply length_fmap. Qed.

Lemma errorUpdate_length mid prev : length (errorUpdate mid prev) = length prev.
Proof. apply length_fmap. Qed.

Lemma streamUpdate_ids mid full prev : id <$> streamUpdate mid full prev = id <$> prev.
Proof. unfold streamUpdate. now apply rewrite_ids. Qed.

Lemma errorUpdate_ids mid prev : id <$> errorUpdate mid prev = id <$> prev.
Proof. unfold errorUpdate. now apply rewrite_ids. Qed.

Lemma streamUpdate_other mid full prev i msg :
  prev !! i = Some msg -> id msg <> mid -> streamUpdate mid full prev !! i = Some msg.
Proof. unfold streamUpdate. apply rewrite_other. Qed.

Lemma errorUpdate_other mid prev i msg :
  prev !! i = Some msg -> id msg <> mid -> errorUpdate mid prev !! i = Some msg.
Proof. unfold errorUpdate. apply rewrite_other. Qed.

Lemma streamUpdate_placeholder base mid now old full :
  mid ∉ id <$> base ->
  streamUpdate mid full (base ++ [modelMessage mid now old None])
  = base ++ [modelMessage mid now full None].
Proof.
  intros Hfresh. unfold streamUpdate. rewrite fmap_app, rewrite_fresh by assumption.
  simpl. now rewrite String.eqb_refl.
Qed.

Lemma errorUpdate_placeholder base mid now old :
  mid ∉ id <$> base ->
  errorUpdate mid (base ++ [modelMessage mid now old None])
  = base ++ [modelMessage mid now errorText (Some true)].
Proof.
  intros Hfresh. unfold errorUpdate. rewrite fmap_app, rewrite_fresh by assumption.
  simpl. now rewrite String.eqb_refl.
Qed.

(** ** Runs *)

Lemma run_cons s e es : run s (e :: es) = run (step s e) es.
Proof. reflexivity. Qed.

Lemma run_app s es1 es2 : run s (es1 ++ es2) = run (run s es1) es2.
Proof. apply foldl_app. Qed.

Lemma run_snoc s es e : run s (es ++ [e]) = step (run s es) e.
Proof. now rewrite run_app. Qed.

(** A property every event preserves holds along every run. *)
Lemma run_invariant (P : AppState -> Prop) (ok : Event -> Prop) :
  (forall s e, ok e -> P s -> P (step s e)) ->
  forall es s, Forall ok es -> P s -> P (run s es).
Proof.
  intros Hstep. induction es as [|e es IH]; intros s Hes Hs; [assumption|].
  inversion Hes; subst. rewrite run_cons. apply IH; [assumption|].
  now apply Hstep.
Qed.

(** ** The [for await] loop *)

Section StreamLoop.
Variables (t : nat) (mid : string) (now : Z) (base : list Message).
Hypothesis mid_fresh : mid ∉ id <$> base.

Let streaming := streamingInto t mid now base.

Lemma streamChunk_streamingInto acc s c :
  streaming acc s ->
  streaming (acc +:+ concatenation (sendMessageStream_yields [c]))
    (step s (StreamChunk t c))
  /\ isLoading (step s (StreamChunk t c)) = isLoading s
  /\ world (step s (StreamChunk t c)) = world s.
Proof.
  intros [(k & Hk & Hph) Hmsgs]. unfold streaming, streamingInto.
  simpl. unfold streamChunk.
  rewrite Hk, Hph. unfold sendMessageStream_yields. simpl.
  destruct (sendMessageStream_yield c) as [chunk|]; state_simpl;
    rewrite append_empty_r; repeat split; eauto.
  - exists (with_phase (Streaming mid (acc +:+ chunk)) k). split; [|reflexivity].
    apply list_lookup_insert_eq. eauto using lookup_lt_Some.
  - rewrite Hmsgs. now apply streamUpdate_placeholder.
Qed.

Lemma streamChunks_streamingInto cs : forall acc s,
  streaming acc s ->
  streaming (acc +:+ concatenation (sendMessageStream_yields cs))
    (run s (StreamChunk t <$> cs))
  /\ isLoading (run s (StreamChunk t <$> cs)) = isLoading s
  /\ world (run s (StreamChunk t <$> cs)) = world s.
Proof.
  induction cs as [|c cs IH]; intros acc s Hs.
  - simpl. rewrite append_empty_r. auto.
  - destruct (streamChunk_streamingInto acc s c Hs) as (H1 & Hl1 & Hw1).
    destruct (IH _ _ H1) as (H2 & Hl2 & Hw2).
    rewrite fmap_cons, run_cons, Hl2, Hl1, Hw2, Hw1.
    rewrite append_assoc, <- concatenation_yields_cons in H2. auto.
Qed.

Lemma streamDone_streamingInto acc s :
  streaming acc s ->
  messages (step s (StreamDone t)) = messages s
  /\ isLoading (step s (StreamDone t)) = false
  /\ placeholderOf t (step s (StreamDone t)) = None.
Proof.
  intros [(k & Hk & Hph) Hmsgs]. simpl. unfold streamDone, placeholderOf.
  rewrite Hk, Hph. state_simpl. repeat split.
  rewrite list_lookup_insert_eq by eauto using lookup_lt_Some. reflexivity.
Qed.

Lemma streamThrow_streamingInto acc s :
  streaming acc s ->
  messages (step s (StreamThrow t))
    = base ++ [modelMessage mid now errorText (Some true)]
  /\ isLoading (step s (StreamThrow t)) = false
  /\ requests (world (step s (StreamThrow t))) = requests (world s)
  /\ placeholderOf t (step s (StreamThrow t)) = None.
Proof.
  intros [(k & Hk & Hph) Hmsgs]. simpl. unfold streamThrow, placeholderOf.
  rewrite Hk, Hph. state_simpl. rewrite Hmsgs. repeat split.
  - now apply errorUpdate_placeholder.
  - rewrite list_lookup_insert_eq by eauto using lookup_lt_Some. reflexivity.
Qed.
End StreamLoop.

(** ** The start of a send *)

Lemma sendMessage_append_fields k d s :
  messages (sendMessage_append k d s)
    = (messages s ++
         [ {| id := userMessageId k; role := USER; text := currentText k;
              image := if truthy_opt (currentPreview k) then currentPreview k else None;
              timestamp := userNow d; isError := None |} ])
      ++ [modelMessage (newModelMessageId d) (modelNow d) "" None]
  /\ tasks (sendMessage_append k d s) = tasks s
  /\ selectedImage (sendMessage_append k d s) = None
  /\ isLoading (sendMessage_append k d s) = true
  /\ chatSessionRef (sendMessage_append k d s) = chatSessionRef s
  /\ chatsCreated (world (sendMessage_append k d s)) = chatsCreated (world s)
  /\ requests (world (sendMessage_append k d s)) = requests (world s).
Proof.
  unfold sendMessage_append, clearImage.
  destruct (currentPreview k) as [u|]; [destruct (truthy u)|];
    repeat split; reflexivity.
Qed.

Lemma sendMessage_open_fields t k imageBase64 mid s :
  messages (sendMessage_open t k imageBase64 mid s) = messages s
  /\ tasks (sendMessage_open t k imageBase64 mid s)
     = <[t := with_phase (Streaming mid "") k]> (tasks s)
  /\ selectedImage (sendMessage_open t k imageBase64 mid s) = selectedImage s
  /\ isLoading (sendMessage_open t k imageBase64 mid s) = isLoading s
  /\ chatSessionRef (sendMessage_open t k imageBase64 mid s) = Some (sessionFor k s)
  /\ chatsCreated (world (sendMessage_open t k imageBase64 mid s))
     = match chatSessionRef s with
       | Some _ => chatsCreated (world s)
       | None => S (chatsCreated (world s))
       end
  /\ requests (world (sendMessage_open t k imageBase64 mid s))
     = requests (world s) ++ [(sessionFor k s, requestFor k imageBase64)].
Proof.
  unfold sendMessage_open, sessionFor, requestFor.
  destruct (chatSessionRef s) eqn:Href; repeat split; try reflexivity.
  exact Href.
Qed.

Lemma sendMessage_resume_fields t k imageBase64 d s :
  tasks (sendMessage_resume t k imageBase64 d s)
    = <[t := with_phase (Streaming (newModelMessageId d) "") k]> (tasks s)
  /\ messages (sendMessage_resume t k imageBase64 d s)
     = (messages s ++
          [ {| id := userMessageId k; role := USER; text := currentText k;
               image := if truthy_opt (currentPreview k) then currentPreview k else None;
               timestamp := userNow d; isError := None |} ])
       ++ [modelMessage (newModelMessageId d) (modelNow d) "" None]
  /\ selectedImage (sendMessage_resume t k imageBase64 d s) = None
  /\ isLoading (sendMessage_resume t k imageBase64 d s) = true
  /\ requests (world (sendMessage_resume t k imageBase64 d s))
     = requests (world s) ++ [(sessionFor k s, requestFor k imageBase64)].
Proof.
  unfold sendMessage_resume.
  destruct (sendMessage_append_fields k d s) as (Am & At & Ai & Al & Ac & An & Ar).
  destruct (sendMessage_open_fields t k imageBase64 (newModelMessageId d)
              (sendMessage_append k d s)) as (Om & Ot & Oi & Ol & _ & _ & Or).
  rewrite Om, Ot, Oi, Ol, Or, Am, At, Ai, Al, Ar.
  unfold sessionFor. rewrite Ac, An. repeat split.
Qed.

Lemma send_start s uuid d :
  send_rejected s = false ->
  (forall f, selectedImage s = Some f -> is_Some (reader_result f)) ->
  run s (sendEvents s uuid d)
  = sendMessage_resume (length (tasks s)) (closure uuid s) (encodingOf s) d
      (set_tasks (fun ts => ts ++ [closure uuid s]) s).
Proof.
  intros Hacc Henc. unfold sendEvents, encodingOf.
  destruct (selectedImage s) as [f|] eqn:Himg.
  - destruct (Henc f eq_refl) as [url Hurl].
    rewrite run_cons. simpl step at 1. unfold handleSendMessage.
    rewrite Hacc. cbn [currentImage closure]. rewrite Himg.
    unfold run; simpl foldl. unfold imageEncoded.
    assert (Hk : tasks (set_tasks (fun ts => ts ++ [closure uuid s]) s)
                 !! length (tasks s) = Some (closure uuid s)).
    { state_simpl. rewrite lookup_app_r, Nat.sub_diag by lia. reflexivity. }
    rewrite Hk. cbn [phase currentImage closure]. rewrite Himg.
    unfold fileToGenerativePart. rewrite Hurl. reflexivity.
  - unfold run; simpl. unfold handleSendMessage. rewrite Hacc.
    cbn [currentImage closure]. rewrite Himg. reflexivity.
Qed.

Lemma send_start_streaming s uuid d :
  send_rejected s = false ->
  (forall f, selectedImage s = Some f -> is_Some (reader_result f)) ->
  streamingInto (length (tasks s)) (newModelMessageId d) (modelNow d)
    (messages s ++ [userMessage uuid d s]) "" (run s (sendEvents s uuid d))
  /\ isLoading (run s (sendEvents s uuid d)) = true
  /\ requests (world (run s (sendEvents s uuid d)))
     = requests (world s)
       ++ [(sessionFor (closure uuid s) s, requestFor (closure uuid s) (encodingOf s))].
Proof.
  intros Hacc Henc. rewrite send_start by assumption.
  set (s1 := set_tasks (fun ts => ts ++ [closure uuid s]) s).
  destruct (sendMessage_resume_fields (length (tasks s)) (closure uuid s)
              (encodingOf s) d s1) as (Ht & Hm & _ & Hl & Hr).
  split; [split | split; assumption].
  - exists (with_phase (Streaming (newModelMessageId d) "") (closure uuid s)).
    split; [|reflexivity]. rewrite Ht. apply list_lookup_insert_eq.
    unfold s1. state_simpl. rewrite length_app. simpl. lia.
  - exact Hm.
Qed.

Lemma fresh_base (s : AppState) uuid d :
  newModelMessageId d ∉ id <$> messages s -> newModelMessageId d <> uuid ->
  newModelMessageId d ∉ id <$> (messages s ++ [userMessage uuid d s]).
Proof.
  intros Hfresh Hne. rewrite fmap_app, not_elem_of_app. split; [assumption|].
  simpl. rewrite not_elem_of_cons. split; [assumption | apply not_elem_of_nil].
Qed.

(** X20. With an image whose encoding is a non-empty string, the request is made
    of the text, or of the default prompt when the text is empty, and of the
    encoded image with the file's type. *)
Lemma request_with_image (s : AppState) (uuid : string) (d : SendDraws)
    (f : File) (data : string) :
  send_rejected s = false ->
  selectedImage s = Some f ->
  fileToGenerativePart f = Resolved (Some data) ->
  data <> "" ->
  requests (world (run s (sendEvents s uuid d)))
  = requests (world s)
    ++ [(sessionFor (closure uuid s) s,
         PartsMessage "user"
           [TextPart (or_else (inputValue s) "What is in this image?");
            InlineData (file_type f) data])].
Proof.
  intros Hacc Himg Hpart Hdata.
  assert (Henc : forall f', selectedImage s = Some f' -> is_Some (reader_result f')).
  { intros f' Hf'. rewrite Himg in Hf'. injection Hf' as <-.
    unfold fileToGenerativePart in Hpart.
    destruct (reader_result f); [eauto | discriminate]. }
  destruct (send_start_streaming s uuid d Hacc Henc) as (_ & _ & Hr).
  rewrite Hr. unfold requestFor, encodingOf, closure. cbn [currentImage currentText].
  rewrite Himg, Hpart. unfold sendMessageStream_request, truthy.
  destruct (String.eqb_spec data ""); [contradiction | reflexivity].
Qed.

(** X21. Without an image the request is the text alone, as typed. *)
Lemma request_without_image (s : AppState) (uuid : string) (d : SendDraws) :
  send_rejected s = false ->
  selectedImage s = None ->
  requests (world (run s (sendEvents s uuid d)))
  = requests (world s)
    ++ [(sessionFor (closure uuid s) s, PlainMessage (inputValue s))].
Proof.
  intros Hacc Himg.
  assert (Henc : forall f', selectedImage s = Some f' -> is_Some (reader_result f'))
    by (rewrite Himg; discriminate).
  destruct (send_start_streaming s uuid d Hacc Henc) as (_ & _ & Hr).
  rewrite Hr. unfold requestFor, encodingOf, closure. cbn [currentImage currentText].
  rewrite Himg. unfold sendMessageStream_request, or_else.
  unfold send_rejected in Hacc. rewrite Himg in Hacc.
  apply orb_false_iff in Hacc as [Hacc _].
  rewrite andb_true_r in Hacc. apply negb_false_iff, truthy_of_trim in Hacc.
  rewrite Hacc. reflexivity.
Qed.

(** A send is refused while the loading flag is set. *)
Lemma send_rejected_while_loading (s : AppState) (uuid : string) (d : SendDraws) :
  isLoading s = true -> step s (HandleSendMessage uuid d) = s.
Proof.
  intros Hl. simpl. unfold handleSendMessage, send_rejected.
  rewrite Hl, orb_true_r. reflexivity.
Qed.

(** ** Session handles *)

Ltac allocated_crush :=
  unfold sessionRef_allocated in *; state_simpl;
  try (intros ? [= <-]; simpl; lia); auto.

Lemma startNewChat_allocated m s : sessionRef_allocated (startNewChat m s).
Proof. allocated_crush. Qed.

Lemma sendMessage_resume_allocated t k imageBase64 d s :
  sessionRef_allocated s ->
  sessionRef_allocated (sendMessage_resume t k imageBase64 d s).
Proof.
  intros Hs chat. unfold sendMessage_resume.
  destruct (sendMessage_append_fields k d s) as (_ & _ & _ & _ & Ac & An & _).
  destruct (sendMessage_open_fields t k imageBase64 (newModelMessageId d)
              (sendMessage_append k d s)) as (_ & _ & _ & _ & Oc & On & _).
  rewrite Oc, On, Ac, An. unfold sessionFor. rewrite Ac, An.
  destruct (chatSessionRef s) as [c|] eqn:Href.
  - intros [= <-]. now apply Hs.
  - intros [= <-]. simpl. lia.
Qed.

Lemma step_allocated s e : sessionRef_allocated s -> sessionRef_allocated (step s e).
Proof.
  intros Hs. destruct e as [v|m|uuid now|file url| |uuid d|t d|t c|t|t]; simpl.
  - allocated_crush.
  - unfold setSelectedModel. destruct (decide _); [assumption | allocated_crush].
  - allocated_crush.
  - unfold handleFileSelect. destruct file as [f|]; [|assumption].
    destruct (negb _); allocated_crush.
  - unfold clearImage. destruct (imagePreview s) as [u|]; [destruct (truthy u)|];
      allocated_crush.
  - unfold handleSendMessage. destruct (send_rejected s); [assumption|].
    cbn [currentImage closure]. destruct (selectedImage s).
    + allocated_crush.
    + apply sendMessage_resume_allocated. allocated_crush.
  - unfold imageEncoded. on_task s t k Hk; [|assumption].
    destruct (phase k); try assumption.
    destruct (currentImage k) as [f|]; [|assumption].
    destruct (fileToGenerativePart f).
    + now apply sendMessage_resume_allocated.
    + allocated_crush.
  - unfold streamChunk. on_task s t k Hk; [|assumption].
    destruct (phase k); try assumption.
    destruct (sendMessageStream_yield c); try assumption; allocated_crush.
  - unfold streamDone. on_task s t k Hk; [|assumption].
    destruct (phase k); try assumption; allocated_crush.
  - unfold streamThrow. on_task s t k Hk; [|assumption].
    destruct (phase k); try assumption; allocated_crush.
Qed.

(** In every state the component reaches, the session in the ref has been
    issued before. *)
Lemma reachable_allocated now es : sessionRef_allocated (run (initialState now) es).
Proof.
  apply (run_invariant sessionRef_allocated (fun _ => True)).
  - intros s e _. apply step_allocated.
  - now apply Forall_forall.
  - apply startNewChat_allocated.
Qed.

Lemma createChatSession_fresh (s : AppState) (m : GeminiModel) :
  sessionRef_allocated s ->
  Some (createChatSession (chatsCreated (world s)) m None) <> chatSessionRef s.
Proof.
  intros Hs Heq. symmetry in Heq. apply Hs in Heq. simpl in Heq. lia.
Qed.

(** ** Sends without image do not overlap *)

Lemma gated_frame s s' :
  gated s -> selectedImage s' = None -> tasks s' = tasks s ->
  isLoading s' = isLoading s -> gated s'.
Proof.
  intros (H1 & H2 & H3 & H4) Hi Ht Hl. unfold gated.
  rewrite Hi, Ht, Hl. auto.
Qed.

Lemma gated_returned t k s :
  gated s -> tasks s !! t = Some k -> phase k <> Returned ->
  gated (set_phase t k Returned (set_isLoading false s)).
Proof.
  intros (H1 & H2 & H3 & H4) Hk Hpending. unfold gated. state_simpl.
  assert (Hall : forall t' k', <[t:=with_phase Returned k]> (tasks s) !! t' = Some k' ->
                               phase k' = Returned).
  { intros t' k' Hk'. apply list_lookup_insert_Some in Hk'.
    destruct Hk' as [(<- & <- & _) | (Hne & Hk')]; [reflexivity|].
    destruct (phase k') eqn:Hph; [now apply H2 in Hk' | | reflexivity].
    exfalso. apply Hne. apply (H4 t t' k k' Hk Hk'); congruence. }
  repeat split; try assumption.
  - intros t' k' Hk'. rewrite (Hall _ _ Hk'). discriminate.
  - intros _. exact Hall.
  - intros t1 t2 k1 k2 Hk1 _ Hp1 _. now apply Hall in Hk1.
Qed.

Lemma gated_streaming t k mid full f s :
  gated s -> tasks s !! t = Some k -> phase k <> Returned ->
  gated (set_phase t k (Streaming mid full) (set_messages f s)).
Proof.
  intros (H1 & H2 & H3 & H4) Hk Hpending. unfold gated. state_simpl.
  assert (Hold : forall t' k', <[t:=with_phase (Streaming mid full) k]> (tasks s) !! t'
                               = Some k' -> phase k' <> Returned ->
                 exists k0, tasks s !! t' = Some k0 /\ phase k0 <> Returned).
  { intros t' k' Hk' Hp'. apply list_lookup_insert_Some in Hk'.
    destruct Hk' as [(<- & <- & _) | (Hne & Hk')]; eauto. }
  repeat split; try assumption.
  - intros t' k' Hk'. apply list_lookup_insert_Some in Hk'.
    destruct Hk' as [(<- & <- & _) | (Hne & Hk')]; [discriminate | eauto].
  - intros Hl. exfalso. apply Hpending. eauto.
  - intros t1 t2 k1 k2 Hk1 Hk2 Hp1 Hp2.
    destruct (Hold _ _ Hk1 Hp1) as (k1' & Hk1' & Hp1').
    destruct (Hold _ _ Hk2 Hp2) as (k2' & Hk2' & Hp2'). eauto.
Qed.

Lemma gated_send uuid d s : gated s -> gated (handleSendMessage uuid d s).
Proof.
  intros Hs. pose proof Hs as (H1 & H2 & H3 & H4).
  unfold handleSendMessage. destruct (send_rejected s) eqn:Hrej; [assumption|].
  cbn [currentImage closure]. rewrite H1.
  apply orb_false_iff in Hrej as [_ Hl]. specialize (H3 Hl).
  set (k := closure uuid s).
  destruct (sendMessage_resume_fields (length (tasks s)) k None d
              (set_tasks (fun ts => ts ++ [k]) s)) as (Ht & _ & Hi & Hl' & _).
  unfold gated. rewrite Ht, Hi, Hl'. state_simpl.
  rewrite insert_app_r_alt, Nat.sub_diag by lia. simpl.
  assert (Hnew : forall t' k',
            (tasks s ++ [with_phase (Streaming (newModelMessageId d) "") k]) !! t'
              = Some k' ->
            phase k' <> Returned ->
            t' = length (tasks s) /\ phase k' = Streaming (newModelMessageId d) "").
  { intros t' k' Hk' Hp'. apply lookup_app_Some in Hk'.
    destruct Hk' as [Hk' | (Hge & Hk')]; [now apply H3 in Hk'|].
    apply list_lookup_singleton_Some in Hk' as [Hz <-]. split; [lia | reflexivity]. }
  repeat split.
  - intros t' k' Hk'. destruct (phase k') eqn:Hp'; try discriminate.
    destruct (Hnew _ _ Hk') as [_ Hph]; congruence.
  - discriminate.
  - intros t1 t2 k1 k2 Hk1 Hk2 Hp1 Hp2.
    destruct (Hnew _ _ Hk1 Hp1) as [-> _]. destruct (Hnew _ _ Hk2 Hp2) as [-> _].
    reflexivity.
Qed.

Lemma gated_clearImage preview s : gated s -> gated (clearImage preview s).
Proof.
  intros Hs. apply (gated_frame s); try assumption; unfold clearImage;
    destruct preview as [u|]; try destruct (truthy u); reflexivity.
Qed.

Lemma step_gated s e : attachesImage e = false -> gated s -> gated (step s e).
Proof.
  intros He Hs. pose proof Hs as (H1 & H2 & H3 & H4).
  destruct e as [v|m|uuid now|file url| |uuid d|t d|t c|t|t]; simpl.
  - now apply (gated_frame s).
  - unfold setSelectedModel. destruct (decide _); [assumption|].
    now apply (gated_frame s).
  - now apply (gated_frame s).
  - unfold handleFileSelect. destruct file as [f|]; [|assumption].
    simpl in He. rewrite He. now apply (gated_frame s).
  - now apply gated_clearImage.
  - now apply gated_send.
  - unfold imageEncoded. on_task s t k Hk; [|assumption].
    destruct (phase k) eqn:Hp; try assumption. now apply H2 in Hk.
  - unfold streamChunk. on_task s t k Hk; [|assumption].
    destruct (phase k) eqn:Hp; try assumption.
    destruct (sendMessageStream_yield c); [|assumption].
    apply gated_streaming; [assumption.. | congruence].
  - unfold streamDone. on_task s t k Hk; [|assumption].
    destruct (phase k) eqn:Hp; try assumption.
    apply gated_returned; [assumption.. | congruence].
  - unfold streamThrow. on_task s t k Hk; [|assumption].
    destruct (phase k) eqn:Hp; try assumption.
    apply (gated_returned t k
             (set_messages (errorUpdate modelMessageId)
                (console_error "Chat Error" (console_error "Gemini API Error:" s)))).
    + now apply (gated_frame s).
    + exact Hk.
    + congruence.
Qed.

Lemma initialState_gated now : gated (initialState now).
Proof.
  unfold gated, initialState. state_simpl.
  repeat split; intros; try discriminate;
    match goal with Hx : [] !! _ = Some _ |- _ => now rewrite lookup_nil in Hx end.
Qed.

(** X17. As long as no image is attached, at most one invocation of the send
    handler is in its stream loop at any time. *)
Lemma text_sends_do_not_overlap (now : Z) (es : list Event) :
  Forall (fun e => attachesImage e = false) es ->
  forall t1 t2 mid1 mid2,
    placeholderOf t1 (run (initialState now) es) = Some mid1 ->
    placeholderOf t2 (run (initialState now) es) = Some mid2 ->
    t1 = t2.
Proof.
  intros Hes.
  assert (Hg : gated (run (initialState now) es)).
  { apply (run_invariant gated (fun e => attachesImage e = false));
      auto using step_gated, initialState_gated. }
  destruct Hg as (_ & _ & _ & H4).
  intros t1 t2 mid1 mid2. unfold placeholderOf.
  destruct (tasks _ !! t1) as [k1|] eqn:Hk1; [|discriminate].
  destruct (tasks _ !! t2) as [k2|] eqn:Hk2; [|discriminate].
  destruct (phase k1) eqn:Hp1; try discriminate.
  destruct (phase k2) eqn:Hp2; try discriminate.
  intros _ _. apply (H4 t1 t2 k1 k2 Hk1 Hk2); congruence.
Qed.

(** ** A stream with other events in between *)

Lemma concatenation_app fs1 fs2 :
  concatenation (fs1 ++ fs2) = concatenation fs1 +:+ concatenation fs2.
Proof.
  induction fs1 as [|f fs1 IH]; [reflexivity|].
  simpl. rewrite IH. now rewrite append_assoc.
Qed.

Lemma chunksFor_cons t e es : chunksFor t (e :: es) = chunksFor t [e] ++ chunksFor t es.
Proof. unfold chunksFor. simpl. now destruct e; try destruct (Nat.eqb _ _). Qed.

Lemma streamChunk_other_tasks t c s t' :
  t' <> t -> tasks (step s (StreamChunk t c)) !! t' = tasks s !! t'.
Proof.
  intros Hne. simpl. unfold streamChunk. on_task s t k Hk; [|reflexivity].
  destruct (phase k); try reflexivity.
  destruct (sendMessageStream_yield c); [|reflexivity].
  state_simpl. now apply list_lookup_insert_ne.
Qed.

Section SoleStream.
Variables (t : nat) (mid : string) (now : Z) (base : list Message).
Hypothesis mid_fresh : mid ∉ id <$> base.

Let sole := soleStream t mid now base.

(** An invocation that is not in the state the event waits for ignores it. *)
Lemma sole_phase acc s t' k' :
  sole acc s -> tasks s !! t' = Some k' ->
  (t' = t /\ phase k' = Streaming mid acc) \/ (t' <> t /\ phase k' = Returned).
Proof.
  intros ([(k & Hk & Hph) _] & _ & Hothers) Hk'.
  destruct (decide (t' = t)) as [->|Hne]; [left | right; eauto].
  split; congruence.
Qed.

Lemma sole_frame acc s s' :
  sole acc s -> messages s' = messages s -> tasks s' = tasks s ->
  isLoading s' = isLoading s -> sole acc s'.
Proof.
  intros (Hs & Hl & Hothers) Hm Ht Hl'.
  unfold sole, soleStream, streamingInto in *. rewrite Hm, Ht, Hl'. auto.
Qed.

Lemma step_sole acc s e :
  interferes t e = false ->
  sole acc s ->
  sole (acc +:+ concatenation (sendMessageStream_yields (chunksFor t [e]))) (step s e).
Proof.
  intros He Hs. pose proof Hs as (Hstr & Hl & Hothers).
  destruct e as [v|m|uuid now'|file url| |uuid d|t' d|t' c|t'|t'];
    try (simpl chunksFor; simpl concatenation; rewrite append_empty_r).
  - now apply (sole_frame acc s).
  - simpl. unfold setSelectedModel. destruct (decide _); [assumption|].
    now apply (sole_frame acc s).
  - discriminate.
  - simpl. unfold handleFileSelect. destruct file as [f|]; [|assumption].
    destruct (negb _); now apply (sole_frame acc s).
  - apply (sole_frame acc s); try assumption; simpl; unfold clearImage;
      destruct (imagePreview s) as [u|]; try destruct (truthy u); reflexivity.
  - discriminate.
  - simpl. unfold imageEncoded. on_task s t' k' Hk'; [|assumption].
    destruct (sole_phase acc s t' k' Hs Hk') as [[_ ->] | [_ ->]]; assumption.
  - destruct (Nat.eqb_spec t' t) as [->|Hne].
    + unfold chunksFor. simpl omap. rewrite Nat.eqb_refl.
      destruct (streamChunk_streamingInto t mid now base mid_fresh acc s c Hstr)
        as (H1 & H2 & _).
      split; [exact H1|]. split; [congruence|].
      intros t'' k'' Hne Hk''. rewrite streamChunk_other_tasks in Hk'' by assumption.
      eauto.
    + unfold chunksFor. simpl omap.
      destruct (Nat.eqb_spec t' t) as [|_]; [contradiction|].
      simpl concatenation. rewrite append_empty_r.
      simpl. unfold streamChunk. on_task s t' k' Hk'; [|assumption].
      destruct (sole_phase acc s t' k' Hs Hk') as [[? _] | [_ ->]];
        [contradiction | assumption].
  - simpl in He. apply Nat.eqb_neq in He.
    simpl. unfold streamDone. on_task s t' k' Hk'; [|assumption].
    destruct (sole_phase acc s t' k' Hs Hk') as [[? _] | [_ ->]];
      [contradiction | assumption].
  - simpl in He. apply Nat.eqb_neq in He.
    simpl. unfold streamThrow. on_task s t' k' Hk'; [|assumption].
    destruct (sole_phase acc s t' k' Hs Hk') as [[? _] | [_ ->]];
      [contradiction | assumption].
Qed.

Lemma run_sole es : forall acc s,
  Forall (fun e => interferes t e = false) es ->
  sole acc s ->
  sole (acc +:+ concatenation (sendMessageStream_yields (chunksFor t es))) (run s es).
Proof.
  induction es as [|e es IH]; intros acc s Hes Hs.
  - simpl. now rewrite append_empty_r.
  - inversion Hes as [|? ? He Hes']; subst.
    rewrite run_cons, chunksFor_cons.
    unfold sendMessageStream_yields. rewrite omap_app, concatenation_app.
    rewrite <- append_assoc. apply IH; [assumption|].
    now apply step_sole.
Qed.
End SoleStream.

(** X18. The accumulation of C1 does not depend on the send being left alone:
    when no other send is pending, whatever the user types, selects or
    attaches while the stream runs, short of clearing the conversation or
    calling the send handler again, the placeholder holds the concatenation
    of the fragments yielded so far, and the whole of it once the stream has
    ended. *)
Lemma stream_accumulates_interleaved (s : AppState) (uuid : string)
    (d : SendDraws) (es : list Event) :
  send_rejected s = false ->
  (forall f, selectedImage s = Some f -> is_Some (reader_result f)) ->
  newModelMessageId d ∉ id <$> messages s ->
  newModelMessageId d <> uuid ->
  (forall t' k', tasks s !! t' = Some k' -> phase k' = Returned) ->
  Forall (fun e => interferes (length (tasks s)) e = false) es ->
  let t := length (tasks s) in
  let s0 := run s (sendEvents s uuid d) in
  let final :=
    messages s
    ++ [userMessage uuid d s;
        modelMessage (newModelMessageId d) (modelNow d)
          (concatenation (sendMessageStream_yields (chunksFor t es))) None] in
  messages (run s0 es) = final
  /\ messages (run s0 (es ++ [StreamDone t])) = final
  /\ isLoading (run s0 (es ++ [StreamDone t])) = false.
Proof.
  intros Hacc Henc Hfresh Hne Hidle Hes t s0 final.
  destruct (send_start_streaming s uuid d Hacc Henc) as (Hs0 & Hl0 & _).
  fold s0 t in Hs0, Hl0.
  pose proof (fresh_base s uuid d Hfresh Hne) as Hbase.
  assert (Hsole : soleStream t (newModelMessageId d) (modelNow d)
                    (messages s ++ [userMessage uuid d s]) "" s0).
  { split; [assumption|]. split; [assumption|].
    intros t' k' Hne' Hk'. unfold s0 in Hk'. rewrite send_start in Hk' by assumption.
    destruct (sendMessage_resume_fields t (closure uuid s) (encodingOf s) d
                (set_tasks (fun ts => ts ++ [closure uuid s]) s)) as (Ht & _).
    fold t in Hk'. rewrite Ht in Hk'.
    rewrite list_lookup_insert_ne in Hk' by congruence.
    state_simpl. apply lookup_app_Some in Hk' as [Hk' | (Hge & Hk')]; [eauto|].
    apply list_lookup_singleton_Some in Hk' as [Hz _]. unfold t in Hne'. lia. }
  destruct (run_sole t _ _ _ Hbase es "" s0 Hes Hsole) as (Hstr & _ & _).
  rewrite run_snoc.
  destruct (streamDone_streamingInto t _ _ _ _ _ Hstr) as (-> & -> & _).
  destruct Hstr as [_ ->]. unfold final. rewrite <- app_assoc. auto.
Qed.

(** X19. Likewise for C2: the error update does not depend on the send
    being left alone, as long as the conversation is not cleared and the send
    handler is not called again. *)
Lemma stream_failure_interleaved (s : AppState) (uuid : string)
    (d : SendDraws) (es : list Event) :
  send_rejected s = false ->
  (forall f, selectedImage s = Some f -> is_Some (reader_result f)) ->
  newModelMessageId d ∉ id <$> messages s ->
  newModelMessageId d <> uuid ->
  (forall t' k', tasks s !! t' = Some k' -> phase k' = Returned) ->
  Forall (fun e => interferes (length (tasks s)) e = false) es ->
  let t := length (tasks s) in
  let sn := run (run s (sendEvents s uuid d)) (es ++ [StreamThrow t]) in
  messages sn
  = messages s
    ++ [userMessage uuid d s;
        modelMessage (newModelMessageId d) (modelNow d) errorText (Some true)]
  /\ isLoading sn = false.
Proof.
  intros Hacc Henc Hfresh Hne Hidle Hes t sn.
  destruct (send_start_streaming s uuid d Hacc Henc) as (Hs0 & Hl0 & _).
  fold t in Hs0.
  pose proof (fresh_base s uuid d Hfresh Hne) as Hbase.
  assert (Hsole : soleStream t (newModelMessageId d) (modelNow d)
                    (messages s ++ [userMessage uuid d s]) ""
                    (run s (sendEvents s uuid d))).
  { split; [assumption|]. split; [assumption|].
    intros t' k' Hne' Hk'. rewrite send_start in Hk' by assumption.
    destruct (sendMessage_resume_fields t (closure uuid s) (encodingOf s) d
                (set_tasks (fun ts => ts ++ [closure uuid s]) s)) as (Ht & _).
    fold t in Hk'. rewrite Ht in Hk'.
    rewrite list_lookup_insert_ne in Hk' by congruence.
    state_simpl. apply lookup_app_Some in Hk' as [Hk' | (Hge & Hk')]; [eauto|].
    apply list_lookup_singleton_Some in Hk' as [Hz _]. unfold t in Hne'. lia. }
  destruct (run_sole t _ _ _ Hbase es "" _ Hes Hsole) as (Hstr & _ & _).
  unfold sn. rewrite run_snoc.
  destruct (streamThrow_streamingInto t _ _ _ Hbase _ _ Hstr) as (-> & -> & _).
  rewrite <- app_assoc. auto.
Qed.

(** * The properties of the specification *)

(** C1. In a send that runs from the call of the handler to the end of its
    stream, after every upstream chunk the list is the old list, the user
    message and the placeholder holding the concatenation of the fragments
    yielded so far, in arrival order; when the stream ends without error the
    placeholder holds the concatenation of all of them, carries no error
    flag, and the loading flag is cleared. *)
Theorem stream_accumulates (s : AppState) (uuid : string) (d : SendDraws)
    (cs : list Chunk) :
  send_rejected s = false ->
  (forall f, selectedImage s = Some f -> is_Some (reader_result f)) ->
  newModelMessageId d ∉ id <$> messages s ->
  newModelMessageId d <> uuid ->
  let t := length (tasks s) in
  let s0 := run s (sendEvents s uuid d) in
  let placeholder txt := modelMessage (newModelMessageId d) (modelNow d) txt None in
  (forall j,
     messages (run s0 (StreamChunk t <$> take j cs))
     = messages s
       ++ [userMessage uuid d s;
           placeholder (concatenation (sendMessageStream_yields (take j cs)))])
  /\ messages (run s0 ((StreamChunk t <$> cs) ++ [StreamDone t]))
     = messages s
       ++ [userMessage uuid d s;
           placeholder (concatenation (sendMessageStream_yields cs))]
  /\ isLoading (run s0 ((StreamChunk t <$> cs) ++ [StreamDone t])) = false.
Proof.
  intros Hacc Henc Hfresh Hne t s0 placeholder.
  destruct (send_start_streaming s uuid d Hacc Henc) as (Hs0 & _).
  fold s0 t in Hs0.
  pose proof (fresh_base s uuid d Hfresh Hne) as Hbase.
  assert (Hrun : forall cs',
    streamingInto t (newModelMessageId d) (modelNow d)
      (messages s ++ [userMessage uuid d s])
      (concatenation (sendMessageStream_yields cs'))
      (run s0 (StreamChunk t <$> cs'))).
  { intros cs'. now apply (streamChunks_streamingInto t _ _ _ Hbase cs' "" s0). }
  split; [|rewrite run_snoc].
  - intros j. destruct (Hrun (take j cs)) as [_ ->]. now rewrite <- app_assoc.
  - destruct (streamDone_streamingInto t _ _ _ _ _ (Hrun cs)) as (-> & -> & _).
    destruct (Hrun cs) as [_ ->]. now rewrite <- app_assoc.
Qed.

Lemma stream_accumulates_witness :
  let s0 := run helloState (sendEvents helloState "u1" draws1) in
  let cs := [textChunk "Hi"; {| chunk_text := None |}; textChunk " there!"] in
  text <$> messages (run s0 (StreamChunk 0 <$> take 1 cs))
    = [welcomeText; "Hello"; "Hi"]
  /\ text <$> messages (run s0 ((StreamChunk 0 <$> cs) ++ [StreamDone 0]))
    = [welcomeText; "Hello"; "Hi there!"].
Proof.
  intros s0 cs.
  assert (Hacc : send_rejected helloState = false) by reflexivity.
  assert (Henc : forall f, selectedImage helloState = Some f ->
                           is_Some (reader_result f)) by (simpl; discriminate).
  assert (Hfresh : newModelMessageId draws1 ∉ id <$> messages helloState)
    by (apply (bool_decide_unpack _); vm_compute; exact I).
  assert (Hne : newModelMessageId draws1 <> "u1") by (simpl; discriminate).
  destruct (stream_accumulates helloState "u1" draws1 cs Hacc Henc Hfresh Hne)
    as (Hprefix & Hfinal & _).
  split.
  - exact (f_equal (fmap text) (Hprefix 1)).
  - exact (f_equal (fmap text) Hfinal).
Defined.

(** C2. When the stream throws after any number of chunks, the list is the
    old list, the user message and the placeholder holding the fixed error
    text with [isError = true]: the fragments received are gone from it and
    no other message differs.  The loading flag is cleared, the invocation
    has returned, and no request was made beyond the one that opened the
    stream. *)
Theorem stream_failure_overwrites (s : AppState) (uuid : string) (d : SendDraws)
    (cs : list Chunk) :
  send_rejected s = false ->
  (forall f, selectedImage s = Some f -> is_Some (reader_result f)) ->
  newModelMessageId d ∉ id <$> messages s ->
  newModelMessageId d <> uuid ->
  let t := length (tasks s) in
  let s0 := run s (sendEvents s uuid d) in
  let sn := run s0 ((StreamChunk t <$> cs) ++ [StreamThrow t]) in
  messages sn
  = messages s
    ++ [userMessage uuid d s;
        modelMessage (newModelMessageId d) (modelNow d) errorText (Some true)]
  /\ isLoading sn = false
  /\ placeholderOf t sn = None
  /\ requests (world sn) = requests (world s0)
  /\ length (requests (world sn)) = S (length (requests (world s))).
Proof.
  intros Hacc Henc Hfresh Hne t s0 sn.
  destruct (send_start_streaming s uuid d Hacc Henc) as (Hs0 & _ & Hr0).
  fold s0 in Hs0, Hr0. fold t in Hs0.
  pose proof (fresh_base s uuid d Hfresh Hne) as Hbase.
  destruct (streamChunks_streamingInto t _ _ _ Hbase cs "" s0 Hs0) as (H & _ & Hw).
  destruct (streamThrow_streamingInto t _ _ _ Hbase _ _ H) as (Hm & Hl & Hr & Hp).
  unfold sn. rewrite run_snoc.
  rewrite Hm, Hl, Hp, Hr, Hw, Hr0, length_app, <- app_assoc. simpl.
  repeat split. lia.
Qed.

Lemma stream_failure_overwrites_witness :
  let s0 := run pngState (sendEvents pngState "u1" draws1) in
  let sn := run s0 ((StreamChunk 0 <$> [textChunk "A cat"; textChunk " on"])
                    ++ [StreamThrow 0]) in
  (fun msg => (text msg, isError msg)) <$> messages sn
    = [(welcomeText, None); ("", None); (errorText, Some true)]
  /\ isLoading sn = false.
Proof.
  intros s0 sn.
  assert (Hacc : send_rejected pngState = false) by reflexivity.
  assert (Henc : forall f, selectedImage pngState = Some f ->
                           is_Some (reader_result f)).
  { simpl. intros f [= <-]. simpl. eauto. }
  assert (Hfresh : newModelMessageId draws1 ∉ id <$> messages pngState)
    by (apply (bool_decide_unpack _); vm_compute; exact I).
  assert (Hne : newModelMessageId draws1 <> "u1") by (simpl; discriminate).
  destruct (stream_failure_overwrites pngState "u1" draws1
              [textChunk "A cat"; textChunk " on"] Hacc Henc Hfresh Hne)
    as (Hm & Hl & _).
  split.
  - exact (f_equal (fmap (fun msg => (text msg, isError msg))) Hm).
  - exact Hl.
Defined.

(** C3. When the trimmed input is empty and no image is attached, the send
    handler returns at once: the state after the event is the state before
    it, so no message is appended, no invocation is started, no request is
    made and the loading flag keeps its value. *)
Theorem send_rejected_when_blank (s : AppState) (uuid : string) (d : SendDraws) :
  trim (inputValue s) = "" -> selectedImage s = None ->
  step s (HandleSendMessage uuid d) = s.
Proof.
  intros Htrim Himg. simpl. unfold handleSendMessage, send_rejected.
  rewrite Htrim, Himg. reflexivity.
Qed.

Lemma send_rejected_when_blank_witness :
  inputValue blankState = "  "
  /\ step blankState (HandleSendMessage "u1" draws1) = blankState.
Proof.
  split; [reflexivity|].
  apply (send_rejected_when_blank blankState "u1" draws1); reflexivity.
Defined.

(** C4. Two calls of the send handler while the image of the first is being
    encoded: the loading flag is still unset at the second call, both calls
    are accepted, and after both encodings two invocations are in their
    stream loops, each rewriting its own placeholder. *)
Theorem double_submit_while_encoding :
  let s1 := step pngState (HandleSendMessage "u1" draws1) in
  let s2 := run s1 [HandleSendMessage "u2" draws2;
                    ImageEncoded 0 draws1; ImageEncoded 1 draws2] in
  let s3 := run s2 [StreamChunk 0 (textChunk "A"); StreamChunk 1 (textChunk "B")] in
  isLoading s1 = false
  /\ send_rejected s1 = false
  /\ placeholderOf 0 s2 = Some "m1"
  /\ placeholderOf 1 s2 = Some "m2"
  /\ (fun msg => (id msg, text msg)) <$> messages s2
     = [("welcome", welcomeText); ("u1", ""); ("m1", ""); ("u2", ""); ("m2", "")]
  /\ (fun msg => (id msg, text msg)) <$> messages s3
     = [("welcome", welcomeText); ("u1", ""); ("m1", "A"); ("u2", ""); ("m2", "B")].
Proof. repeat split. Qed.

(** C5. Whatever the message list was, clearing the conversation leaves
    exactly one message, the greeting, of role model and without error flag,
    and stores a session created at that moment for the selected model: its
    model is the selected variant and its handle is the next handle of the
    provider, which differs from the one stored before. *)
Theorem clear_chat_single_greeting (s : AppState) (uuid : string) (now : Z) :
  let s' := step s (HandleClearChat uuid now) in
  messages s' = [modelMessage uuid now cleanSlateText None]
  /\ length (messages s') = 1
  /\ chatSessionRef s' =
       Some (createChatSession (chatsCreated (world s)) (selectedModel s) None)
  /\ chat_model <$> chatSessionRef s' = Some (selectedModel s)
  /\ chat_handle <$> chatSessionRef s' = Some (chatsCreated (world s))
  /\ chatsCreated (world s') = S (chatsCreated (world s))
  /\ selectedModel s' = selectedModel s
  /\ (sessionRef_allocated s -> chatSessionRef s' <> chatSessionRef s).
Proof.
  repeat split. simpl. now apply createChatSession_fresh.
Qed.

(** C6. Every fragment [sendMessageStream] yields is a non-empty string:
    the yielded fragments are the texts of the upstream chunks, in order,
    without the absent and the empty ones. *)
Theorem yields_are_nonempty (cs : list Chunk) :
  Forall (fun chunk => chunk <> "") (sendMessageStream_yields cs)
  /\ sendMessageStream_yields cs = filter (fun t => t <> "") (omap chunk_text cs).
Proof.
  unfold sendMessageStream_yields. induction cs as [|[[t|]] cs [IH1 IH2]]; simpl.
  - split; constructor.
  - unfold sendMessageStream_yield; simpl. unfold truthy.
    rewrite filter_cons. destruct (String.eqb_spec t ""); simpl.
    + subst. rewrite decide_False by tauto. split; auto.
    + rewrite decide_True by auto. split; [constructor; auto | f_equal; auto].
  - split; auto.
Qed.

(** C7. A send with an attached image of zero bytes: the data URL of the
    file ends at its comma, the encoding is the empty string, and the request
    is the default prompt as plain text, without the image. *)
Theorem empty_image_sent_as_plain_text :
  selectedImage emptyPngState = Some emptyPngFile
  /\ send_rejected emptyPngState = false
  /\ fileToGenerativePart emptyPngFile = Resolved (Some "")
  /\ requests (world (run emptyPngState (sendEvents emptyPngState "u1" draws1)))
     = [(createChatSession 0 FLASH None, PlainMessage "What is in this image?")].
Proof. repeat split. Qed.

(** C8. Selecting a file whose type does not start with [image/] raises the
    alert and changes nothing else: message list, attached image and preview
    are as before. *)
Theorem non_image_file_rejected (s : AppState) (f : File) (objectURL : string) :
  startsWith (file_type f) "image/" = false ->
  let s' := step s (HandleFileSelect (Some f) objectURL) in
  s' = alert "Please select an image file." s
  /\ alerts (world s') = alerts (world s) ++ ["Please select an image file."]
  /\ messages s' = messages s
  /\ selectedImage s' = selectedImage s
  /\ imagePreview s' = imagePreview s.
Proof.
  intros Hty. simpl. unfold handleFileSelect. rewrite Hty. simpl. repeat split.
Qed.

Lemma non_image_file_rejected_witness :
  let s' := step pngState (HandleFileSelect (Some textFile) "blob:2") in
  alerts (world s') = ["Please select an image file."]
  /\ messages s' = messages pngState
  /\ selectedImage s' = Some pngFile.
Proof.
  intros s'.
  destruct (non_image_file_rejected pngState textFile "blob:2" eq_refl)
    as (_ & Ha & Hm & Hi & _).
  repeat split; assumption.
Defined.

(** C9. Changing the model variant stores a session created at that moment
    for the new variant, in place of the old one: its model is the new
    variant and its handle is the next handle of the provider, so it is not
    the session stored before.  The message list is left as it was. *)
Theorem model_change_recreates_session (s : AppState) (m : GeminiModel) :
  m <> selectedModel s ->
  sessionRef_allocated s ->
  let s' := step s (SetSelectedModel m) in
  selectedModel s' = m
  /\ chatSessionRef s' = Some (createChatSession (chatsCreated (world s)) m None)
  /\ chat_model <$> chatSessionRef s' = Some m
  /\ chat_handle <$> chatSessionRef s' = Some (chatsCreated (world s))
  /\ chatsCreated (world s') = S (chatsCreated (world s))
  /\ chatSessionRef s' <> chatSessionRef s
  /\ messages s' = messages s.
Proof.
  intros Hne Halloc. simpl. unfold setSelectedModel.
  destruct (decide (m = selectedModel s)); [contradiction|]. repeat split.
  simpl. now apply createChatSession_fresh.
Qed.

Lemma model_change_recreates_session_witness :
  let s' := step helloState (SetSelectedModel PRO) in
  selectedModel s' = PRO
  /\ chat_model <$> chatSessionRef s' = Some PRO
  /\ chat_handle <$> chatSessionRef s' = Some 1
  /\ chat_model <$> chatSessionRef helloState = Some FLASH
  /\ messages s' = messages helloState.
Proof.
  intros s'.
  assert (Hne : PRO <> selectedModel helloState) by (simpl; discriminate).
  assert (Halloc : sessionRef_allocated helloState).
  { intros chat [= <-]. simpl. lia. }
  destruct (model_change_recreates_session helloState PRO Hne Halloc)
    as (Hm & _ & Hmodel & Hhandle & _ & _ & Hl).
  repeat split; assumption.
Defined.

(** C10. The update made for a fragment and the update made when the stream
    throws rewrite only messages whose id is the placeholder's: the list
    keeps its length and the order of its ids, and every message of another
    id keeps all its fields. *)
Theorem stream_updates_frame (s : AppState) (t : nat) (c : Chunk) :
  onlyRewritten (placeholderOf t s) (messages s) (messages (step s (StreamChunk t c)))
  /\ onlyRewritten (placeholderOf t s) (messages s) (messages (step s (StreamThrow t))).
Proof.
  assert (Hrefl : forall o l, onlyRewritten o l l) by (repeat split; auto).
  unfold placeholderOf. simpl. unfold streamChunk, streamThrow.
  on_task s t k Hk; [|split; apply Hrefl].
  destruct (phase k) as [|mid full|]; try (split; apply Hrefl).
  split.
  - destruct (sendMessageStream_yield c) as [chunk|]; [|apply Hrefl].
    state_simpl. split; [apply streamUpdate_length|].
    split; [apply streamUpdate_ids|].
    intros i msg Hi Hne. apply streamUpdate_other; congruence.
  - state_simpl. split; [apply errorUpdate_length|].
    split; [apply errorUpdate_ids|].
    intros i msg Hi Hne. apply errorUpdate_other; congruence.
Qed.

(** * Further properties of the code *)

(** ** Field lemmas *)

Lemma sendMessage_append_ui k d s :
  inputValue (sendMessage_append k d s) = ""
  /\ imagePreview (sendMessage_append k d s) = None
  /\ selectedModel (sendMessage_append k d s) = selectedModel s
  /\ alerts (world (sendMessage_append k d s)) = alerts (world s)
  /\ consoleErrors (world (sendMessage_append k d s)) = consoleErrors (world s)
  /\ revokedURLs (world (sendMessage_append k d s))
     = revokedURLs (world s)
       ++ match currentPreview k with
          | Some u => if truthy u then [u] else []
          | None => []
          end.
Proof.
  unfold sendMessage_append, clearImage.
  destruct (currentPreview k) as [u|]; [destruct (truthy u)|];
    repeat split; try reflexivity; simpl; now rewrite app_nil_r.
Qed.

Lemma sendMessage_open_ui t k imageBase64 mid s :
  inputValue (sendMessage_open t k imageBase64 mid s) = inputValue s
  /\ imagePreview (sendMessage_open t k imageBase64 mid s) = imagePreview s
  /\ selectedModel (sendMessage_open t k imageBase64 mid s) = selectedModel s
  /\ alerts (world (sendMessage_open t k imageBase64 mid s)) = alerts (world s)
  /\ consoleErrors (world (sendMessage_open t k imageBase64 mid s))
     = consoleErrors (world s)
  /\ revokedURLs (world (sendMessage_open t k imageBase64 mid s))
     = revokedURLs (world s).
Proof.
  unfold sendMessage_open. destruct (chatSessionRef s); repeat split.
Qed.

Lemma sendMessage_resume_ui t k imageBase64 d s :
  inputValue (sendMessage_resume t k imageBase64 d s) = ""
  /\ imagePreview (sendMessage_resume t k imageBase64 d s) = None
  /\ selectedModel (sendMessage_resume t k imageBase64 d s) = selectedModel s
  /\ chatSessionRef (sendMessage_resume t k imageBase64 d s) = Some (sessionFor k s)
  /\ chatsCreated (world (sendMessage_resume t k imageBase64 d s))
     = match chatSessionRef s with
       | Some _ => chatsCreated (world s)
       | None => S (chatsCreated (world s))
       end
  /\ consoleErrors (world (sendMessage_resume t k imageBase64 d s))
     = consoleErrors (world s)
  /\ revokedURLs (world (sendMessage_resume t k imageBase64 d s))
     = revokedURLs (world s)
       ++ match currentPreview k with
          | Some u => if truthy u then [u] else []
          | None => []
          end.
Proof.
  unfold sendMessage_resume.
  destruct (sendMessage_append_ui k d s) as (Ai & Ap & Am & _ & Ae & Av).
  destruct (sendMessage_append_fields k d s) as (_ & _ & _ & _ & Ac & An & _).
  destruct (sendMessage_open_ui t k imageBase64 (newModelMessageId d)
              (sendMessage_append k d s)) as (Oi & Op & Om & _ & Oe & Ov).
  destruct (sendMessage_open_fields t k imageBase64 (newModelMessageId d)
              (sendMessage_append k d s)) as (_ & _ & _ & _ & Oc & On & _).
  rewrite Oi, Op, Om, Oc, On, Oe, Ov, Ai, Ap, Am, Ae, Av.
  unfold sessionFor. rewrite Ac, An. repeat split.
Qed.

(** ** The session *)

Lemma startNewChat_session s :
  sessionInvariant (startNewChat (selectedModel s) s).
Proof.
  exists (createChatSession (chatsCreated (world s)) (selectedModel s) None).
  repeat split.
Qed.

Lemma sessionInvariant_frame s s' :
  sessionInvariant s ->
  chatSessionRef s' = chatSessionRef s -> selectedModel s' = selectedModel s ->
  chatsCreated (world s') = chatsCreated (world s) ->
  sessionInvariant s'.
Proof.
  intros (chat & H1 & H2 & H3 & H4) Hc Hm Hn. exists chat.
  rewrite Hc, Hm, Hn. auto.
Qed.

Lemma sendMessage_resume_session t k imageBase64 d s :
  sessionInvariant s -> sessionInvariant (sendMessage_resume t k imageBase64 d s).
Proof.
  intros Hs. pose proof Hs as (chat & Hc & _).
  destruct (sendMessage_resume_ui t k imageBase64 d s) as (_ & _ & Hm & Hr & Hn & _).
  apply (sessionInvariant_frame s); try assumption.
  - rewrite Hr. unfold sessionFor. now rewrite Hc.
  - rewrite Hn. now rewrite Hc.
Qed.

Lemma step_session s e : sessionInvariant s -> sessionInvariant (step s e).
Proof.
  intros Hs. destruct e as [v|m|uuid now|file url| |uuid d|t d|t c|t|t]; simpl.
  - now apply (sessionInvariant_frame s).
  - unfold setSelectedModel. destruct (decide _); [assumption|].
    apply (startNewChat_session (set_selectedModel m s)).
  - unfold handleClearChat. apply (startNewChat_session (set_messages _ s)).
  - unfold handleFileSelect. destruct file as [f|]; [|assumption].
    destruct (negb _); now apply (sessionInvariant_frame s).
  - apply (sessionInvariant_frame s); try assumption; unfold clearImage;
      destruct (imagePreview s) as [u|]; try destruct (truthy u); reflexivity.
  - unfold handleSendMessage. destruct (send_rejected s); [assumption|].
    cbn [currentImage closure]. destruct (selectedImage s).
    + now apply (sessionInvariant_frame s).
    + apply sendMessage_resume_session. now apply (sessionInvariant_frame s).
  - unfold imageEncoded. on_task s t k Hk; [|assumption].
    destruct (phase k); try assumption.
    destruct (currentImage k) as [f|]; [|assumption].
    destruct (fileToGenerativePart f).
    + now apply sendMessage_resume_session.
    + now apply (sessionInvariant_frame s).
  - unfold streamChunk. on_task s t k Hk; [|assumption].
    destruct (phase k); try assumption.
    destruct (sendMessageStream_yield c); try assumption;
      now apply (sessionInvariant_frame s).
  - unfold streamDone. on_task s t k Hk; [|assumption].
    destruct (phase k); try assumption; now apply (sessionInvariant_frame s).
  - unfold streamThrow. on_task s t k Hk; [|assumption].
    destruct (phase k); try assumption; now apply (sessionInvariant_frame s).
Qed.

Lemma run_session (now : Z) (es : list Event) :
  sessionInvariant (run (initialState now) es).
Proof.
  apply (run_invariant sessionInvariant (fun _ => True)).
  - intros s e _. apply step_session.
  - now apply Forall_forall.
  - apply (startNewChat_session
             {| messages := _; inputValue := ""; isLoading := false;
                selectedModel := FLASH; selectedImage := None;
                imagePreview := None; chatSessionRef := None; tasks := [];
                world := _ |}).
Qed.

(** X1. Whatever the user does, the ref holds a session, the one created
    last, and that session was made for the model variant that is selected
    and carries the default system instruction. *)
Theorem session_follows_selected_model (now : Z) (es : list Event) :
  exists chat,
    chatSessionRef (run (initialState now) es) = Some chat
    /\ chat_model chat = selectedModel (run (initialState now) es)
    /\ chat_systemInstruction chat = defaultSystemInstruction
    /\ S (chat_handle chat) = chatsCreated (world (run (initialState now) es)).
Proof. exact (run_session now es). Qed.

(** X2. Only the model buttons and the clear button replace the session:
    after any other event, in any state the component reaches, the ref holds
    the session it held and no session has been created.  Sending and
    streaming never create one. *)
Theorem session_kept_by_other_events (now : Z) (es : list Event) (e : Event) :
  replacesSession e = false ->
  chatSessionRef (step (run (initialState now) es) e)
    = chatSessionRef (run (initialState now) es)
  /\ chatsCreated (world (step (run (initialState now) es) e))
     = chatsCreated (world (run (initialState now) es)).
Proof.
  intros He. pose proof (run_session now es) as (chat & Hc & _).
  set (s := run (initialState now) es) in *.
  assert (Hresume : forall t k b d s1,
            chatSessionRef s1 = chatSessionRef s ->
            chatsCreated (world s1) = chatsCreated (world s) ->
            chatSessionRef (sendMessage_resume t k b d s1) = chatSessionRef s
            /\ chatsCreated (world (sendMessage_resume t k b d s1))
               = chatsCreated (world s)).
  { intros t k b d s1 H1 H2.
    destruct (sendMessage_resume_ui t k b d s1) as (_ & _ & _ & Hr & Hn & _).
    rewrite Hr, Hn. unfold sessionFor. rewrite H1, Hc. auto. }
  destruct e as [v|m|uuid now'|file url| |uuid d|t d|t c|t|t];
    try discriminate; simpl.
  - auto.
  - unfold handleFileSelect. destruct file as [f|]; [|auto].
    destruct (negb _); auto.
  - unfold clearImage. destruct (imagePreview s) as [u|];
      try destruct (truthy u); auto.
  - unfold handleSendMessage. destruct (send_rejected s); [auto|].
    cbn [currentImage closure]. destruct (selectedImage s); [auto|].
    now apply Hresume.
  - unfold imageEncoded. on_task s t k Hk; [|auto].
    destruct (phase k); auto.
    destruct (currentImage k) as [f|]; [|auto].
    destruct (fileToGenerativePart f); [now apply Hresume | auto].
  - unfold streamChunk. on_task s t k Hk; [|auto].
    destruct (phase k); auto. destruct (sendMessageStream_yield c); auto.
  - unfold streamDone. on_task s t k Hk; [|auto]. destruct (phase k); auto.
  - unfold streamThrow. on_task s t k Hk; [|auto]. destruct (phase k); auto.
Qed.

Lemma session_kept_by_other_events_witness :
  chatSessionRef (step (run (initialState 0) [SetSelectedModel PRO])
                    (HandleSendMessage "u1" draws1))
  = Some (createChatSession 1 PRO None).
Proof.
  exact (proj1 (session_kept_by_other_events 0 [SetSelectedModel PRO]
                  (HandleSendMessage "u1" draws1) eq_refl)).
Defined.

(** ** The encoding of a file *)

Lemma split_nonempty sep s : split sep s <> [].
Proof.
  destruct s as [|c s]; simpl; [discriminate|].
  destruct (Ascii.eqb c sep); [discriminate|].
  destruct (split sep s); discriminate.
Qed.

Lemma split_no_separator sep s : occurs sep s = false -> split sep s = [s].
Proof.
  induction s as [|c s IH]; simpl; [reflexivity|].
  destruct (Ascii.eqb c sep); simpl; [discriminate|].
  intros H. now rewrite (IH H).
Qed.

Lemma split_append sep prefix s :
  occurs sep prefix = false ->
  split sep (prefix +:+ String sep s) = prefix :: split sep s.
Proof.
  induction prefix as [|c prefix IH]; intros H.
  - change (split sep (String sep s) = "" :: split sep s).
    simpl. now rewrite Ascii.eqb_refl.
  - simpl in H. apply orb_false_iff in H as [Hc H].
    change (split sep (String c (prefix +:+ String sep s))
            = String c prefix :: split sep s).
    simpl. rewrite Hc, (IH H). reflexivity.
Qed.

Lemma split_pieces sep s : Forall (fun piece => occurs sep piece = false) (split sep s).
Proof.
  induction s as [|c s IH]; simpl; [repeat constructor|].
  destruct (Ascii.eqb c sep) eqn:Hc; [constructor; auto|].
  destruct (split sep s) as [|h t]; [repeat constructor; simpl; now rewrite Hc|].
  inversion IH; subst. constructor; [simpl; now rewrite Hc | assumption].
Qed.

(** X3. For a file whose reader reports a data URL, a prefix without comma
    followed by a comma and a payload without comma, [fileToGenerativePart]
    resolves to the payload: the prefix and the comma are removed and
    nothing else. *)
Theorem fileToGenerativePart_strips_prefix (f : File) (prefix payload : string) :
  reader_result f = Some (prefix +:+ String "," payload) ->
  occurs "," prefix = false ->
  occurs "," payload = false ->
  fileToGenerativePart f = Resolved (Some payload).
Proof.
  intros Hr Hprefix Hpayload. unfold fileToGenerativePart. rewrite Hr.
  rewrite split_append by assumption.
  now rewrite split_no_separator by assumption.
Qed.

Lemma fileToGenerativePart_strips_prefix_witness :
  fileToGenerativePart pngFile = Resolved (Some "QUJD").
Proof.
  apply (fileToGenerativePart_strips_prefix pngFile "data:image/png;base64" "QUJD");
    reflexivity.
Defined.

(** X4. [fileToGenerativePart] rejects exactly when the reader fails; it
    resolves to [undefined] exactly when the reader's text has no comma; and
    a string it resolves to never contains a comma. *)
Theorem fileToGenerativePart_outcomes (f : File) :
  (fileToGenerativePart f = Rejected <-> reader_result f = None)
  /\ (fileToGenerativePart f = Resolved None <->
      exists url, reader_result f = Some url /\ occurs "," url = false)
  /\ (forall data, fileToGenerativePart f = Resolved (Some data) ->
        occurs "," data = false).
Proof.
  unfold fileToGenerativePart. destruct (reader_result f) as [url|].
  - split; [split; discriminate|]. split.
    + split.
      * intros [= H]. exists url. split; [reflexivity|].
        destruct (occurs "," url) eqn:Hocc; [exfalso | reflexivity].
        clear f. revert H. induction url as [|c url IH]; [discriminate|].
        simpl in Hocc |- *. destruct (Ascii.eqb c ",") eqn:Hc.
        -- pose proof (split_nonempty "," url). destruct (split "," url); easy.
        -- simpl in Hocc. specialize (IH Hocc).
           destruct (split "," url) as [|h [|h' t]]; simpl in *; try easy.
      * intros (url' & [= <-] & Hocc). now rewrite split_no_separator.
    + intros data [= H]. pose proof (split_pieces "," url) as Hall.
      rewrite Forall_lookup in Hall. exact (Hall 1 data H).
  - split; [split; reflexivity|]. split; [|discriminate].
    split; [discriminate | intros (url & ? & _); discriminate].
Qed.

(** ** The streamed text *)

(** X5. Skipping the chunks without text loses no text: the concatenation
    of the fragments [sendMessageStream] yields is the concatenation of the
    texts of all upstream chunks that have one. *)
Theorem skipped_chunks_carry_no_text (cs : list Chunk) :
  concatenation (sendMessageStream_yields cs) = concatenation (omap chunk_text cs).
Proof.
  induction cs as [|[[t|]] cs IH]; [reflexivity| |].
  - rewrite concatenation_yields_cons, IH.
    change (omap chunk_text ({| chunk_text := Some t |} :: cs))
      with (t :: omap chunk_text cs).
    change (concatenation (t :: omap chunk_text cs))
      with (t +:+ concatenation (omap chunk_text cs)).
    f_equal. unfold sendMessageStream_yields, sendMessageStream_yield, truthy.
    simpl. destruct (String.eqb_spec t ""); [now subst | apply append_empty_r].
  - rewrite concatenation_yields_cons, IH. reflexivity.
Qed.

(** ** The guard of a send *)

Lemma trimStart_empty s : trimStart s = "" <-> allWhiteSpace s = true.
Proof.
  induction s as [|c s IH]; simpl; [tauto|].
  destruct (isWhiteSpace c); simpl; [exact IH|]. split; discriminate.
Qed.

Lemma trimEnd_empty s : trimEnd s = "" <-> allWhiteSpace s = true.
Proof.
  induction s as [|c s IH]; simpl; [tauto|].
  destruct (trimEnd s) eqn:Ht.
  - destruct (isWhiteSpace c); simpl; [tauto|]. split; discriminate.
  - split; [discriminate|]. intros H. apply andb_true_iff in H as [_ H].
    apply IH in H. discriminate.
Qed.

Lemma trimStart_allWhiteSpace s :
  allWhiteSpace (trimStart s) = true -> allWhiteSpace s = true.
Proof.
  induction s as [|c s IH]; simpl; [auto|].
  destruct (isWhiteSpace c) eqn:Hc; simpl; [exact IH|]. now rewrite Hc.
Qed.

Lemma trim_empty s : trim s = "" <-> allWhiteSpace s = true.
Proof.
  unfold trim. rewrite trimEnd_empty. split.
  - apply trimStart_allWhiteSpace.
  - intros H. apply trimStart_empty in H. now rewrite H.
Qed.

(** X6. Input made of white space only cannot be sent: when no image is
    attached and every character of the input is a space, a tab, a line
    break or another white-space character (in particular when the input is
    empty), the send handler returns at once, leaving the state as it was,
    and the send button is disabled. *)
Theorem white_space_input_is_refused (s : AppState) (uuid : string) (d : SendDraws) :
  selectedImage s = None ->
  allWhiteSpace (inputValue s) = true ->
  step s (HandleSendMessage uuid d) = s
  /\ sendButton_disabled s = true.
Proof.
  intros Himg Hws. apply trim_empty in Hws.
  simpl. unfold handleSendMessage, send_rejected, sendButton_disabled.
  rewrite Hws, Himg. simpl. split; [reflexivity | apply orb_true_r].
Qed.

Lemma white_space_input_is_refused_witness :
  let s := step (initialState 0)
             (SetInputValue (String (ascii_of_nat 9) (String (ascii_of_nat 10) " "))) in
  step s (HandleSendMessage "u1" draws1) = s
  /\ sendButton_disabled s = true.
Proof.
  intros s.
  exact (white_space_input_is_refused s "u1" draws1 eq_refl eq_refl).
Defined.

(** X7. The Enter key cannot send what the button refuses: in a state in
    which the send button is disabled, no key press changes the state. *)
Theorem keyDown_respects_disabled_button (s : AppState) (key : string)
    (shiftKey : bool) (uuid : string) (d : SendDraws) :
  sendButton_disabled s = true ->
  handleKeyDown key shiftKey uuid d s = s.
Proof.
  intros Hdis. unfold handleKeyDown, handleSendMessage.
  assert (Hrej : send_rejected s = true).
  { unfold send_rejected. unfold sendButton_disabled in Hdis.
    now rewrite orb_comm. }
  rewrite Hrej. now destruct (_ && _).
Qed.

Lemma keyDown_respects_disabled_button_witness :
  handleKeyDown "Enter" false "u1" draws1 blankState = blankState.
Proof.
  apply (keyDown_respects_disabled_button blankState "Enter" false "u1" draws1).
  reflexivity.
Defined.

(** ** The attachment *)

Lemma attachment_frame s s' :
  attachmentInvariant s ->
  selectedImage s' = selectedImage s -> imagePreview s' = imagePreview s ->
  tasks s' = tasks s -> attachmentInvariant s'.
Proof.
  intros (H1 & H2 & H3) Hi Hp Ht. unfold attachmentInvariant.
  rewrite Hi, Hp, Ht. auto.
Qed.

Lemma attachment_cleared s s' :
  attachmentInvariant s ->
  selectedImage s' = None -> imagePreview s' = None ->
  (forall t k f, tasks s' !! t = Some k -> currentImage k = Some f -> imageFile f) ->
  attachmentInvariant s'.
Proof.
  intros _ Hi Hp Ht. unfold attachmentInvariant. rewrite Hi, Hp.
  repeat split; try assumption; try discriminate; intros [? [=]].
Qed.

Lemma tasks_images_insert (ts : list Task) t k p f t' k' :
  (forall t k f, ts !! t = Some k -> currentImage k = Some f -> imageFile f) ->
  ts !! t = Some k ->
  <[t := with_phase p k]> ts !! t' = Some k' -> currentImage k' = Some f ->
  imageFile f.
Proof.
  intros Hts Hk Hk' Hf. apply list_lookup_insert_Some in Hk'.
  destruct Hk' as [(<- & <- & _) | (_ & Hk')]; eauto.
Qed.

Lemma sendMessage_resume_attachment t k imageBase64 d s :
  attachmentInvariant s -> tasks s !! t = Some k ->
  attachmentInvariant (sendMessage_resume t k imageBase64 d s).
Proof.
  intros Hs Hk. pose proof Hs as (_ & _ & H3).
  destruct (sendMessage_resume_fields t k imageBase64 d s) as (Ht & _ & Hi & _).
  destruct (sendMessage_resume_ui t k imageBase64 d s) as (_ & Hp & _).
  apply (attachment_cleared s); try assumption.
  rewrite Ht. intros t' k' f. now apply tasks_images_insert.
Qed.

Lemma attachment_set_phase t k p s :
  attachmentInvariant s -> tasks s !! t = Some k ->
  forall s', selectedImage s' = selectedImage s -> imagePreview s' = imagePreview s ->
    tasks s' = <[t := with_phase p k]> (tasks s) -> attachmentInvariant s'.
Proof.
  intros (H1 & H2 & H3) Hk s' Hi Hp Ht. unfold attachmentInvariant.
  rewrite Hi, Hp, Ht. repeat split; try apply H2; try assumption.
  intros t' k' f. now apply tasks_images_insert.
Qed.

Lemma step_attachment s e : attachmentInvariant s -> attachmentInvariant (step s e).
Proof.
  intros Hs. pose proof Hs as (H1 & H2 & H3).
  destruct e as [v|m|uuid now|file url| |uuid d|t d|t c|t|t]; simpl.
  - now apply (attachment_frame s).
  - unfold setSelectedModel. destruct (decide _); [assumption|].
    now apply (attachment_frame s).
  - now apply (attachment_frame s).
  - unfold handleFileSelect. destruct file as [f|]; [|assumption].
    destruct (startsWith (file_type f) "image/") eqn:Hf; simpl.
    + unfold attachmentInvariant. state_simpl. repeat split; eauto.
      intros f' [= <-]. exact Hf.
    + now apply (attachment_frame s).
  - apply (attachment_cleared s); try assumption; unfold clearImage;
      destruct (imagePreview s) as [u|]; try destruct (truthy u);
      try reflexivity; exact H3.
  - unfold handleSendMessage. destruct (send_rejected s); [assumption|].
    cbn [currentImage closure].
    assert (Hs1 : attachmentInvariant
                    (set_tasks (fun ts => ts ++ [closure uuid s]) s)).
    { unfold attachmentInvariant. state_simpl. repeat split; try apply H2; auto.
      intros t k f Hk Hf. apply lookup_app_Some in Hk as [Hk | (_ & Hk)]; [eauto|].
      apply list_lookup_singleton_Some in Hk as [_ <-]. simpl in Hf. eauto. }
    destruct (selectedImage s) eqn:Himg; [exact Hs1|].
    apply sendMessage_resume_attachment; [exact Hs1|].
    state_simpl. rewrite lookup_app_r, Nat.sub_diag by lia. reflexivity.
  - unfold imageEncoded. on_task s t k Hk; [|assumption].
    destruct (phase k); try assumption.
    destruct (currentImage k) as [f|]; [|assumption].
    destruct (fileToGenerativePart f).
    + now apply sendMessage_resume_attachment.
    + now apply (attachment_set_phase t k Returned s).
  - unfold streamChunk. on_task s t k Hk; [|assumption].
    destruct (phase k) as [|mid full|]; try assumption.
    destruct (sendMessageStream_yield c) as [chunk|]; try assumption.
    now apply (attachment_set_phase t k (Streaming mid (full +:+ chunk)) s).
  - unfold streamDone. on_task s t k Hk; [|assumption].
    destruct (phase k); try assumption.
    now apply (attachment_set_phase t k Returned s).
  - unfold streamThrow. on_task s t k Hk; [|assumption].
    destruct (phase k); try assumption.
    now apply (attachment_set_phase t k Returned s).
Qed.

Lemma initialState_attachment now : attachmentInvariant (initialState now).
Proof.
  unfold attachmentInvariant, initialState. state_simpl.
  repeat split; try discriminate; try (intros [? [=]]);
    intros t k f Hk; now rewrite lookup_nil in Hk.
Qed.

(** X8. Whatever the user does, the attached file is one that passed the
    check of [handleFileSelect] (its type starts with [image/]), so is every
    file a pending send has copied, and a preview URL is kept exactly while
    a file is attached. *)
Theorem attachment_is_an_image (now : Z) (es : list Event) :
  attachmentInvariant (run (initialState now) es).
Proof.
  apply (run_invariant attachmentInvariant (fun _ => True)).
  - intros s e _. apply step_attachment.
  - now apply Forall_forall.
  - apply initialState_attachment.
Qed.

(** ** The requests *)

Lemma or_else_nonempty a b : b <> "" -> or_else a b <> "".
Proof.
  intros Hb. unfold or_else, truthy.
  destruct (String.eqb_spec a ""); simpl; assumption.
Qed.

Lemma requestFor_wellFormed k imageBase64 :
  (forall f, currentImage k = Some f -> imageFile f) ->
  wellFormedRequest (requestFor k imageBase64).
Proof.
  intros Hk. unfold requestFor.
  set (message := or_else _ _).
  assert (Hmsg : message <> "").
  { apply or_else_nonempty. destruct (currentImage k); discriminate. }
  unfold sendMessageStream_request.
  destruct imageBase64 as [data|]; [|exact Hmsg].
  unfold truthy. destruct (String.eqb_spec data ""); simpl; [exact Hmsg|].
  split; [reflexivity|]. eexists _, _, _. split; [reflexivity|].
  repeat split; try assumption.
  destruct (currentImage k) as [f|]; simpl; [now apply Hk | reflexivity].
Qed.

Lemma step_requests s e :
  attachmentInvariant s -> requestsWellFormed s -> requestsWellFormed (step s e).
Proof.
  intros (H1 & _ & H3) Hs. unfold requestsWellFormed in *.
  assert (Hresume : forall t k b d s1,
            requests (world s1) = requests (world s) ->
            (forall f, currentImage k = Some f -> imageFile f) ->
            Forall (fun cr => wellFormedRequest cr.2)
              (requests (world (sendMessage_resume t k b d s1)))).
  { intros t k b d s1 Hr Hk.
    destruct (sendMessage_resume_fields t k b d s1) as (_ & _ & _ & _ & ->).
    rewrite Hr. apply Forall_app. split; [assumption|].
    constructor; [|constructor]. now apply requestFor_wellFormed. }
  destruct e as [v|m|uuid now|file url| |uuid d|t d|t c|t|t]; simpl.
  - assumption.
  - unfold setSelectedModel. now destruct (decide _).
  - assumption.
  - unfold handleFileSelect. destruct file as [f|]; [|assumption].
    now destruct (negb _).
  - unfold clearImage. destruct (imagePreview s) as [u|];
      try destruct (truthy u); assumption.
  - unfold handleSendMessage. destruct (send_rejected s); [assumption|].
    cbn [currentImage closure]. destruct (selectedImage s) eqn:Himg; [assumption|].
    apply Hresume; [reflexivity|]. simpl. rewrite Himg. discriminate.
  - unfold imageEncoded. on_task s t k Hk; [|assumption].
    destruct (phase k); try assumption.
    destruct (currentImage k) as [f|] eqn:Hf; [|assumption].
    destruct (fileToGenerativePart f); [|assumption].
    apply Hresume; [reflexivity|]. rewrite Hf. intros f' [= <-]. eauto.
  - unfold streamChunk. on_task s t k Hk; [|assumption].
    destruct (phase k); try assumption.
    now destruct (sendMessageStream_yield c).
  - unfold streamDone. on_task s t k Hk; [|assumption]. now destruct (phase k).
  - unfold streamThrow. on_task s t k Hk; [|assumption]. now destruct (phase k).
Qed.

(** X9. Every request the component ever makes has a non-empty text; when
    it carries an image there is exactly one, after the text, sent in the
    role [user], with non-empty data and a content type that starts with
    [image/]. *)
Theorem requests_are_well_formed (now : Z) (es : list Event) :
  requestsWellFormed (run (initialState now) es).
Proof.
  apply (run_invariant
           (fun s => attachmentInvariant s /\ requestsWellFormed s)
           (fun _ => True)).
  - intros s e _ [Ha Hr]. split; [now apply step_attachment | now apply step_requests].
  - now apply Forall_forall.
  - split; [apply initialState_attachment | constructor].
Qed.

(** X10. In an accepted send the text of the request is the typed text, or
    the image prompt when nothing was typed; the fallback "Hello" of the
    handler is sent only when the user typed it. *)
Theorem hello_fallback_is_never_used (s : AppState) (uuid : string) (d : SendDraws) :
  send_rejected s = false ->
  (forall f, selectedImage s = Some f -> is_Some (reader_result f)) ->
  exists chat r,
    requests (world (run s (sendEvents s uuid d))) = requests (world s) ++ [(chat, r)]
    /\ requestText r = Some (or_else (inputValue s) "What is in this image?")
    /\ (requestText r = Some "Hello" -> inputValue s = "Hello").
Proof.
  intros Hacc Henc.
  destruct (send_start_streaming s uuid d Hacc Henc) as (_ & _ & Hr).
  eexists _, _. split; [exact Hr|].
  assert (Htext : requestText (requestFor (closure uuid s) (encodingOf s))
                  = Some (or_else (inputValue s) "What is in this image?")).
  { unfold requestFor. cbn [currentText currentImage closure].
    assert (Hmsg : or_else (inputValue s)
                     match selectedImage s with
                     | Some _ => "What is in this image?"
                     | None => "Hello"
                     end = or_else (inputValue s) "What is in this image?").
    { destruct (selectedImage s) eqn:Himg; [reflexivity|].
      unfold send_rejected in Hacc. rewrite Himg in Hacc.
      apply orb_false_iff in Hacc as [Hacc _].
      rewrite andb_true_r in Hacc. apply negb_false_iff, truthy_of_trim in Hacc.
      unfold or_else. now rewrite Hacc. }
    rewrite Hmsg. unfold sendMessageStream_request.
    destruct (encodingOf s) as [data|]; [|reflexivity].
    now destruct (truthy data). }
  split; [exact Htext|].
  rewrite Htext. intros [= H]. unfold or_else in H.
  destruct (truthy (inputValue s)); [assumption | discriminate].
Qed.

Lemma hello_fallback_is_never_used_witness :
  exists chat r,
    requests (world (run pngState (sendEvents pngState "u1" draws1))) = [(chat, r)]
    /\ requestText r = Some "What is in this image?".
Proof.
  assert (Henc : forall f, selectedImage pngState = Some f ->
                           is_Some (reader_result f)).
  { simpl. intros f [= <-]. simpl. eauto. }
  destruct (hello_fallback_is_never_used pngState "u1" draws1 eq_refl Henc)
    as (chat & r & Hr & Ht & _).
  exists chat, r. split; assumption.
Defined.

(** ** The outcome of a send *)

(** X11. When the image of an accepted send cannot be read, the send is
    given up before anything is shown: the failure is logged, and the
    message list, the typed text, the attachment, the loading flag and the
    requests are as before, so the same send can be tried again. *)
Theorem encoding_failure_aborts_send (s : AppState) (uuid : string) (d : SendDraws)
    (f : File) :
  send_rejected s = false ->
  selectedImage s = Some f ->
  reader_result f = None ->
  let s' := run s (sendEvents s uuid d) in
  messages s' = messages s
  /\ inputValue s' = inputValue s
  /\ selectedImage s' = selectedImage s
  /\ imagePreview s' = imagePreview s
  /\ isLoading s' = isLoading s
  /\ requests (world s') = requests (world s)
  /\ consoleErrors (world s') = consoleErrors (world s) ++ ["Failed to process image"]
  /\ placeholderOf (length (tasks s)) s' = None
  /\ send_rejected s' = false.
Proof.
  intros Hacc Himg Hread.
  assert (Hrun : run s (sendEvents s uuid d)
                 = set_phase (length (tasks s)) (closure uuid s) Returned
                     (console_error "Failed to process image"
                        (set_tasks (fun ts => ts ++ [closure uuid s]) s))).
  { unfold sendEvents. rewrite Himg, run_cons. simpl step at 1.
    unfold handleSendMessage. rewrite Hacc. cbn [currentImage closure].
    rewrite Himg. unfold run; simpl foldl. unfold imageEncoded.
    assert (Hk : tasks (set_tasks (fun ts => ts ++ [closure uuid s]) s)
                 !! length (tasks s) = Some (closure uuid s)).
    { state_simpl. rewrite lookup_app_r, Nat.sub_diag by lia. reflexivity. }
    rewrite Hk. cbn [phase currentImage closure]. rewrite Himg.
    unfold fileToGenerativePart. rewrite Hread. reflexivity. }
  cbv zeta. rewrite Hrun. repeat split; try exact Hacc.
  unfold placeholderOf. state_simpl.
  rewrite list_lookup_insert_eq; [reflexivity|]. rewrite length_app. simpl. lia.
Qed.

Lemma encoding_failure_aborts_send_witness :
  let unreadable := {| file_type := "image/png"; reader_result := None |} in
  let s := step (initialState 0) (HandleFileSelect (Some unreadable) "blob:1") in
  messages (run s (sendEvents s "u1" draws1)) = messages s
  /\ selectedImage (run s (sendEvents s "u1" draws1)) = Some unreadable.
Proof.
  intros unreadable s.
  destruct (encoding_failure_aborts_send s "u1" draws1 unreadable
              eq_refl eq_refl eq_refl) as (Hm & _ & Hi & _).
  split; assumption.
Defined.

(** X12. An accepted send empties the input, detaches the image and its
    preview, revokes the preview URL and sets the loading flag. *)
Theorem accepted_send_resets_input (s : AppState) (uuid : string) (d : SendDraws) :
  send_rejected s = false ->
  (forall f, selectedImage s = Some f -> is_Some (reader_result f)) ->
  let s0 := run s (sendEvents s uuid d) in
  inputValue s0 = ""
  /\ selectedImage s0 = None
  /\ imagePreview s0 = None
  /\ isLoading s0 = true
  /\ revokedURLs (world s0) = revokedURLs (world s) ++ revokedBySend s.
Proof.
  intros Hacc Henc. cbv zeta. rewrite send_start by assumption.
  set (s1 := set_tasks (fun ts => ts ++ [closure uuid s]) s).
  destruct (sendMessage_resume_fields (length (tasks s)) (closure uuid s)
              (encodingOf s) d s1) as (_ & _ & Hi & Hl & _).
  destruct (sendMessage_resume_ui (length (tasks s)) (closure uuid s)
              (encodingOf s) d s1) as (Hv & Hp & _ & _ & _ & _ & Hrev).
  repeat split; assumption.
Qed.

Lemma accepted_send_resets_input_witness :
  let s0 := run pngState (sendEvents pngState "u1" draws1) in
  selectedImage s0 = None /\ revokedURLs (world s0) = ["blob:1"].
Proof.
  intros s0.
  assert (Henc : forall f, selectedImage pngState = Some f ->
                           is_Some (reader_result f)).
  { simpl. intros f [= <-]. simpl. eauto. }
  destruct (accepted_send_resets_input pngState "u1" draws1 eq_refl Henc)
    as (_ & Hi & _ & _ & Hrev).
  split; assumption.
Defined.

(** ** The message list *)

Lemma step_ids_prefix s e :
  clearsChat e = false ->
  (id <$> messages s) `prefix_of` (id <$> messages (step s e)).
Proof.
  intros He.
  assert (Hresume : forall t k b d s1, messages s1 = messages s ->
            (id <$> messages s)
              `prefix_of` (id <$> messages (sendMessage_resume t k b d s1))).
  { intros t k b d s1 Hm.
    destruct (sendMessage_resume_fields t k b d s1) as (_ & -> & _).
    rewrite Hm, <- app_assoc, fmap_app. now apply prefix_app_r. }
  destruct e as [v|m|uuid now|file url| |uuid d|t d|t c|t|t];
    try discriminate; simpl.
  - reflexivity.
  - unfold setSelectedModel. now destruct (decide _).
  - unfold handleFileSelect. destruct file as [f|]; [|reflexivity].
    now destruct (negb _).
  - unfold clearImage. destruct (imagePreview s) as [u|];
      try destruct (truthy u); reflexivity.
  - unfold handleSendMessage. destruct (send_rejected s); [reflexivity|].
    cbn [currentImage closure]. destruct (selectedImage s); [reflexivity|].
    now apply Hresume.
  - unfold imageEncoded. on_task s t k Hk; [|reflexivity].
    destruct (phase k); try reflexivity.
    destruct (currentImage k) as [f|]; [|reflexivity].
    destruct (fileToGenerativePart f); [now apply Hresume | reflexivity].
  - unfold streamChunk. on_task s t k Hk; [|reflexivity].
    destruct (phase k); try reflexivity.
    destruct (sendMessageStream_yield c); [|reflexivity].
    state_simpl. now rewrite streamUpdate_ids.
  - unfold streamDone. on_task s t k Hk; [|reflexivity].
    destruct (phase k); reflexivity.
  - unfold streamThrow. on_task s t k Hk; [|reflexivity].
    destruct (phase k); try reflexivity.
    state_simpl. now rewrite errorUpdate_ids.
Qed.

(** X13. Short of the clear button, nothing removes, inserts or reorders
    messages: over any run without a click on it, the ids the list had are
    the first ids of the list after the run, in the same order. *)
Theorem messages_only_grow (s : AppState) (es : list Event) :
  Forall (fun e => clearsChat e = false) es ->
  (id <$> messages s) `prefix_of` (id <$> messages (run s es)).
Proof.
  revert s. induction es as [|e es IH]; intros s Hes; [reflexivity|].
  inversion Hes as [|? ? He Hes']; subst. rewrite run_cons.
  transitivity (id <$> messages (step s e));
    [now apply step_ids_prefix | now apply IH].
Qed.

Lemma messages_only_grow_witness :
  ["welcome"] `prefix_of`
    (id <$> messages (run helloState
                        [HandleSendMessage "u1" draws1;
                         StreamChunk 0 (textChunk "Hi"); StreamThrow 0])).
Proof.
  apply (messages_only_grow helloState
           [HandleSendMessage "u1" draws1;
            StreamChunk 0 (textChunk "Hi"); StreamThrow 0]).
  repeat constructor.
Defined.

(** X14. The message list is never empty: whatever the user does, there is
    at least the greeting or what followed it. *)
Theorem messages_never_empty (now : Z) (es : list Event) :
  messages (run (initialState now) es) <> [].
Proof.
  apply (run_invariant (fun s => messages s <> []) (fun _ => True)).
  - intros s e _ Hs. destruct (clearsChat e) eqn:He.
    + destruct e; discriminate.
    + destruct (step_ids_prefix s e He) as [rest Hrest].
      destruct (messages s); [contradiction|].
      destruct (messages (step s e)); [discriminate | discriminate].
  - now apply Forall_forall.
  - discriminate.
Qed.

(** ** A stream that outlives its conversation *)

Lemma placeholderOf_Some t s mid :
  placeholderOf t s = Some mid ->
  exists k full, tasks s !! t = Some k /\ phase k = Streaming mid full.
Proof.
  unfold placeholderOf. on_task s t k Hk; [|discriminate].
  destruct (phase k) as [|mid' full|] eqn:Hp; try discriminate.
  intros [= <-]. eauto.
Qed.

Lemma placeholderOf_set_phase t k mid full s :
  t < length (tasks s) ->
  placeholderOf t (set_phase t k (Streaming mid full) s) = Some mid.
Proof.
  intros Hlt. unfold placeholderOf. state_simpl.
  now rewrite list_lookup_insert_eq.
Qed.

Section StaleStream.
Variables (t : nat) (mid uuid : string) (now : Z).
Hypothesis mid_other : mid <> uuid.

Let greeting := [modelMessage uuid now cleanSlateText None].

Let stale (s : AppState) : Prop :=
  placeholderOf t s = Some mid /\ messages s = greeting.

Lemma streamChunk_stale s c :
  stale s ->
  stale (step s (StreamChunk t c))
  /\ isLoading (step s (StreamChunk t c)) = isLoading s.
Proof.
  intros [Hp Hm]. destruct (placeholderOf_Some t s mid Hp) as (k & full & Hk & Hph).
  simpl. unfold streamChunk. rewrite Hk, Hph.
  destruct (sendMessageStream_yield c) as [chunk|]; [|repeat split; assumption].
  split; [split|reflexivity].
  - apply placeholderOf_set_phase. state_simpl. eauto using lookup_lt_Some.
  - state_simpl. rewrite Hm. unfold greeting, streamUpdate. simpl.
    destruct (String.eqb_spec uuid mid); [congruence | reflexivity].
Qed.

Lemma streamChunks_stale cs : forall s,
  stale s ->
  stale (run s (StreamChunk t <$> cs))
  /\ isLoading (run s (StreamChunk t <$> cs)) = isLoading s.
Proof.
  induction cs as [|c cs IH]; intros s Hs; [auto|].
  rewrite fmap_cons, run_cons.
  destruct (streamChunk_stale s c Hs) as [H1 Hl1].
  destruct (IH _ H1) as [H2 Hl2]. split; [assumption | congruence].
Qed.

Lemma streamEnd_stale s :
  stale s ->
  messages (step s (StreamThrow t)) = greeting
  /\ isLoading (step s (StreamThrow t)) = false
  /\ messages (step s (StreamDone t)) = greeting
  /\ isLoading (step s (StreamDone t)) = false.
Proof.
  intros [Hp Hm]. destruct (placeholderOf_Some t s mid Hp) as (k & full & Hk & Hph).
  simpl. unfold streamThrow, streamDone. rewrite Hk, Hph. state_simpl.
  rewrite Hm. repeat split.
  unfold greeting, errorUpdate. simpl.
  destruct (String.eqb_spec uuid mid); [congruence | reflexivity].
Qed.
End StaleStream.

(** X15. Clearing the conversation does not stop a stream that is running.
    The stream goes on and the loading flag stays as it was until the stream
    ends, but nothing of it is shown any more: after every further chunk the
    list is the greeting alone, and so it is when the stream ends or fails,
    so that the failure of such a stream leaves no error message. *)
Theorem cleared_stream_writes_nothing (s : AppState) (t : nat) (mid uuid : string)
    (now : Z) (cs : list Chunk) :
  placeholderOf t s = Some mid ->
  mid <> uuid ->
  let s1 := step s (HandleClearChat uuid now) in
  let greeting := [modelMessage uuid now cleanSlateText None] in
  placeholderOf t s1 = Some mid
  /\ isLoading (run s1 (StreamChunk t <$> cs)) = isLoading s
  /\ messages (run s1 (StreamChunk t <$> cs)) = greeting
  /\ messages (run s1 ((StreamChunk t <$> cs) ++ [StreamDone t])) = greeting
  /\ messages (run s1 ((StreamChunk t <$> cs) ++ [StreamThrow t])) = greeting
  /\ isLoading (run s1 ((StreamChunk t <$> cs) ++ [StreamThrow t])) = false.
Proof.
  intros Hp Hne s1 greeting.
  assert (Hs1 : placeholderOf t s1 = Some mid /\ messages s1 = greeting)
    by (split; [exact Hp | reflexivity]).
  destruct (streamChunks_stale t mid uuid now Hne cs s1 Hs1) as [Hrun Hl].
  destruct (streamEnd_stale t mid uuid now Hne _ Hrun) as (Hm1 & Hl1 & Hm2 & _).
  rewrite !run_snoc. destruct Hrun as [_ Hm]. repeat split; assumption.
Qed.

Lemma cleared_stream_writes_nothing_witness :
  let s := run helloState [HandleSendMessage "u1" draws1; StreamChunk 0 (textChunk "Hi")] in
  let s1 := step s (HandleClearChat "g1" 9) in
  text <$> messages (run s1 ((StreamChunk 0 <$> [textChunk " there!"])
                             ++ [StreamThrow 0]))
  = [cleanSlateText].
Proof.
  intros s s1.
  assert (Hne : "m1" <> "g1") by discriminate.
  destruct (cleared_stream_writes_nothing s 0 "m1" "g1" 9 [textChunk " there!"]
              eq_refl Hne) as (_ & _ & _ & _ & Hm & _).
  exact (f_equal (fmap text) Hm).
Defined.

(** ** The loading flag *)

Lemma placeholderOf_insert_other t t' k p (s s' : AppState) mid :
  tasks s' = <[t := with_phase p k]> (tasks s) -> t' <> t ->
  placeholderOf t' s = Some mid -> placeholderOf t' s' = Some mid.
Proof.
  intros Ht Hne. unfold placeholderOf. rewrite Ht.
  now rewrite list_lookup_insert_ne by congruence.
Qed.

Lemma loading_frame s s' :
  loadingInvariant s -> tasks s' = tasks s -> isLoading s' = isLoading s ->
  loadingInvariant s'.
Proof.
  intros Hs Ht Hl. unfold loadingInvariant, placeholderOf in *.
  rewrite Ht, Hl. exact Hs.
Qed.

Lemma loading_resume t k imageBase64 d s :
  t < length (tasks s) -> loadingInvariant (sendMessage_resume t k imageBase64 d s).
Proof.
  intros Hlt _. exists t, (newModelMessageId d).
  destruct (sendMessage_resume_fields t k imageBase64 d s) as (Ht & _).
  unfold placeholderOf. rewrite Ht. now rewrite list_lookup_insert_eq.
Qed.

Lemma step_loading s e : loadingInvariant s -> loadingInvariant (step s e).
Proof.
  intros Hs. destruct e as [v|m|uuid now|file url| |uuid d|t d|t c|t|t]; simpl.
  - now apply (loading_frame s).
  - unfold setSelectedModel. destruct (decide _); [assumption|].
    now apply (loading_frame s).
  - now apply (loading_frame s).
  - unfold handleFileSelect. destruct file as [f|]; [|assumption].
    destruct (negb _); now apply (loading_frame s).
  - apply (loading_frame s); try assumption; unfold clearImage;
      destruct (imagePreview s) as [u|]; try destruct (truthy u); reflexivity.
  - unfold handleSendMessage. destruct (send_rejected s) eqn:Hrej; [assumption|].
    cbn [currentImage closure]. destruct (selectedImage s).
    + apply orb_false_iff in Hrej as [_ Hl]. intros Hl'. state_simpl. congruence.
    + apply loading_resume. state_simpl. rewrite length_app. simpl. lia.
  - unfold imageEncoded. on_task s t k Hk; [|assumption].
    destruct (phase k) eqn:Hp; try assumption.
    destruct (currentImage k) as [f|]; [|assumption].
    destruct (fileToGenerativePart f).
    + apply loading_resume. eauto using lookup_lt_Some.
    + intros Hl. destruct (Hs Hl) as (t' & mid & Ht').
      exists t', mid.
      apply (placeholderOf_insert_other t t' k Returned s); try assumption;
        [reflexivity|].
      intros ->. unfold placeholderOf in Ht'. rewrite Hk, Hp in Ht'. discriminate.
  - unfold streamChunk. on_task s t k Hk; [|assumption].
    destruct (phase k) as [|mid full|] eqn:Hp; try assumption.
    destruct (sendMessageStream_yield c) as [chunk|]; [|assumption].
    intros _. exists t, mid. apply placeholderOf_set_phase.
    state_simpl. eauto using lookup_lt_Some.
  - unfold streamDone. on_task s t k Hk; [|assumption].
    destruct (phase k); try assumption. intros Hl. discriminate.
  - unfold streamThrow. on_task s t k Hk; [|assumption].
    destruct (phase k); try assumption. intros Hl. discriminate.
Qed.

(** X16. The loading flag is never left set: in every state the component
    reaches in which it is set, some send is in its stream loop, and the end
    or the failure of a stream clears the flag. *)
Theorem loading_means_streaming (now : Z) (es : list Event) :
  isLoading (run (initialState now) es) = true ->
  exists t mid, placeholderOf t (run (initialState now) es) = Some mid.
Proof.
  apply (run_invariant loadingInvariant (fun _ => True)).
  - intros s e _. apply step_loading.
  - now apply Forall_forall.
  - intros Hl. discriminate.
Qed.

Lemma loading_means_streaming_witness :
  exists t mid,
    placeholderOf t (run (initialState 0)
                       [SetInputValue "Hello"; HandleSendMessage "u1" draws1])
    = Some mid.
Proof.
  apply (loading_means_streaming 0
           [SetInputValue "Hello"; HandleSendMessage "u1" draws1]).
  reflexivity.
Defined.

(** ** Concrete runs of the lemmas on overlapping sends and requests *)

Lemma text_sends_do_not_overlap_witness :
  placeholderOf 0 (run (initialState 0)
                     [SetInputValue "Hello"; HandleSendMessage "u1" draws1;
                      HandleSendMessage "u2" draws2])
  = Some "m1"
  /\ 0 = 0.
Proof.
  assert (Hes : Forall (fun e => attachesImage e = false)
                  [SetInputValue "Hello"; HandleSendMessage "u1" draws1;
                   HandleSendMessage "u2" draws2])
    by (repeat constructor).
  split; [reflexivity|].
  exact (text_sends_do_not_overlap 0 _ Hes 0 0 "m1" "m1" eq_refl eq_refl).
Defined.

Lemma stream_accumulates_interleaved_witness :
  let s0 := run helloState (sendEvents helloState "u1" draws1) in
  text <$> messages
    (run s0 ([StreamChunk 0 (textChunk "Hi"); SetInputValue "next";
              SetSelectedModel PRO; StreamChunk 0 (textChunk " there!")]
             ++ [StreamDone 0]))
  = [welcomeText; "Hello"; "Hi there!"].
Proof.
  intros s0.
  assert (Henc : forall f, selectedImage helloState = Some f ->
                           is_Some (reader_result f)) by (simpl; discriminate).
  assert (Hfresh : newModelMessageId draws1 ∉ id <$> messages helloState)
    by (apply (bool_decide_unpack _); vm_compute; exact I).
  assert (Hne : newModelMessageId draws1 <> "u1") by (simpl; discriminate).
  assert (Hidle : forall t' k', tasks helloState !! t' = Some k' ->
                                phase k' = Returned)
    by (intros t' k' [=]).
  assert (Hes : Forall (fun e => interferes (length (tasks helloState)) e = false)
                  [StreamChunk 0 (textChunk "Hi"); SetInputValue "next";
                   SetSelectedModel PRO; StreamChunk 0 (textChunk " there!")])
    by (repeat constructor).
  destruct (stream_accumulates_interleaved helloState "u1" draws1 _
              eq_refl Henc Hfresh Hne Hidle Hes) as (_ & Hm & _).
  exact (f_equal (fmap text) Hm).
Defined.

Lemma stream_failure_interleaved_witness :
  let s0 := run helloState (sendEvents helloState "u1" draws1) in
  (fun msg => (text msg, isError msg)) <$> messages
    (run s0 ([StreamChunk 0 (textChunk "Hi"); SetInputValue "next"]
             ++ [StreamThrow 0]))
  = [(welcomeText, None); ("Hello", None); (errorText, Some true)].
Proof.
  intros s0.
  assert (Henc : forall f, selectedImage helloState = Some f ->
                           is_Some (reader_result f)) by (simpl; discriminate).
  assert (Hfresh : newModelMessageId draws1 ∉ id <$> messages helloState)
    by (apply (bool_decide_unpack _); vm_compute; exact I).
  assert (Hne : newModelMessageId draws1 <> "u1") by (simpl; discriminate).
  assert (Hidle : forall t' k', tasks helloState !! t' = Some k' ->
                                phase k' = Returned)
    by (intros t' k' [=]).
  assert (Hes : Forall (fun e => interferes (length (tasks helloState)) e = false)
                  [StreamChunk 0 (textChunk "Hi"); SetInputValue "next"])
    by (repeat constructor).
  destruct (stream_failure_interleaved helloState "u1" draws1 _
              eq_refl Henc Hfresh Hne Hidle Hes) as (Hm & _).
  exact (f_equal (fmap (fun msg => (text msg, isError msg))) Hm).
Defined.

Lemma request_with_image_witness :
  requests (world (run pngState (sendEvents pngState "u1" draws1)))
  = [(createChatSession 0 FLASH None,
      PartsMessage "user"
        [TextPart "What is in this image?"; InlineData "image/png" "QUJD"])].
Proof.
  assert (Hdata : "QUJD" <> "") by discriminate.
  exact (request_with_image pngState "u1" draws1 pngFile "QUJD"
           eq_refl eq_refl eq_refl Hdata).
Defined.

Lemma request_without_image_witness :
  requests (world (run helloState (sendEvents helloState "u1" draws1)))
  = [(createChatSession 0 FLASH None, PlainMessage "Hello")].
Proof.
  exact (request_without_image helloState "u1" draws1 eq_refl eq_refl).
Defined.

(** ** Attaching and detaching an image *)

(** X22. Attaching an image file and detaching it again leaves no
    attachment and no preview, revokes the preview URL that was created for
    it, and changes neither the messages nor the typed text; an attachment
    that was there before is replaced without its preview being revoked. *)
Theorem attach_then_clear (s : AppState) (f : File) (objectURL : string) :
  imageFile f ->
  objectURL <> "" ->
  let s1 := step s (HandleFileSelect (Some f) objectURL) in
  let s2 := step s1 ClearImage in
  selectedImage s1 = Some f
  /\ imagePreview s1 = Some objectURL
  /\ revokedURLs (world s1) = revokedURLs (world s)
  /\ selectedImage s2 = None
  /\ imagePreview s2 = None
  /\ revokedURLs (world s2) = revokedURLs (world s) ++ [objectURL]
  /\ messages s2 = messages s
  /\ inputValue s2 = inputValue s.
Proof.
  intros Hf Hurl. simpl. unfold handleFileSelect. unfold imageFile in Hf.
  rewrite Hf. simpl. unfold clearImage. simpl.
  unfold truthy. destruct (String.eqb_spec objectURL ""); [contradiction|].
  repeat split.
Qed.

Lemma attach_then_clear_witness :
  let s2 := step (step helloState (HandleFileSelect (Some pngFile) "blob:1"))
              ClearImage in
  selectedImage s2 = None /\ revokedURLs (world s2) = ["blob:1"].
Proof.
  intros s2.
  assert (Hurl : "blob:1" <> "") by discriminate.
  destruct (attach_then_clear helloState pngFile "blob:1" eq_refl Hurl)
    as (_ & _ & _ & Hi & _ & Hr & _).
  split; assumption.
Defined.

(** ** What the placeholder shows *)

Lemma concatenation_nonempty fs :
  Forall (fun f => f <> "") fs -> fs <> [] -> concatenation fs <> "".
Proof.
  intros Hall Hne. destruct fs as [|f fs]; [contradiction|].
  inversion Hall; subst. destruct f; [contradiction | discriminate].
Qed.

Lemma yields_nonempty cs : Forall (fun f => f <> "") (sendMessageStream_yields cs).
Proof.
  unfold sendMessageStream_yields. induction cs as [|c cs IH]; [constructor|].
  simpl. unfold sendMessageStream_yield at 1.
  destruct (chunk_text c) as [t|]; [|exact IH].
  unfold truthy. destruct (String.eqb_spec t ""); simpl; [exact IH|].
  now constructor.
Qed.

(** X23. The bubble of the placeholder shows "Thinking..." from the start
    of an accepted send until the first fragment, then the text received so
    far; when the stream ends without having yielded any fragment the
    bubble is left empty, with no error. *)
Theorem placeholder_bubble (s : AppState) (uuid : string) (d : SendDraws)
    (cs : list Chunk) :
  send_rejected s = false ->
  (forall f, selectedImage s = Some f -> is_Some (reader_result f)) ->
  newModelMessageId d ∉ id <$> messages s ->
  newModelMessageId d <> uuid ->
  let t := length (tasks s) in
  let s0 := run s (sendEvents s uuid d) in
  let sj := run s0 (StreamChunk t <$> cs) in
  let sn := run s0 ((StreamChunk t <$> cs) ++ [StreamDone t]) in
  let shown (s' : AppState) := bubbleContent (isLoading s') <$> last (messages s') in
  let received := concatenation (sendMessageStream_yields cs) in
  shown s0 = Some (Some "Thinking...")
  /\ shown sj = Some (Some (if truthy received then received else "Thinking..."))
  /\ shown sn = Some (if truthy received then Some received else None)
  /\ (received = "" <-> sendMessageStream_yields cs = []).
Proof.
  intros Hacc Henc Hfresh Hne t s0 sj sn shown received.
  destruct (send_start_streaming s uuid d Hacc Henc) as (Hs0 & Hl0 & _).
  fold s0 t in Hs0, Hl0.
  pose proof (fresh_base s uuid d Hfresh Hne) as Hbase.
  destruct (streamChunks_streamingInto t _ _ _ Hbase cs "" s0 Hs0)
    as (Hsj & Hlj & _).
  fold sj in Hsj, Hlj.
  destruct (streamDone_streamingInto t _ _ _ _ _ Hsj) as (Hmn & Hln & _).
  assert (Hsn : step sj (StreamDone t) = sn)
    by (unfold sn, sj; now rewrite run_snoc).
  rewrite Hsn in Hmn, Hln.
  destruct Hs0 as [_ Hm0]. destruct Hsj as [_ Hmj].
  change ("" +:+ concatenation (sendMessageStream_yields cs)) with received in Hmj.
  unfold shown. rewrite Hmn, Hln, Hlj, Hl0, Hmj, Hm0, !last_snoc.
  unfold bubbleContent. simpl.
  repeat split.
  - now destruct (truthy received).
  - intros Hr. destruct (sendMessageStream_yields cs) eqn:Hy; [reflexivity|].
    exfalso. apply (concatenation_nonempty (sendMessageStream_yields cs));
      [apply yields_nonempty | now rewrite Hy | now rewrite Hy].
  - unfold received. now intros ->.
Qed.

Lemma placeholder_bubble_witness :
  let s0 := run helloState (sendEvents helloState "u1" draws1) in
  bubbleContent (isLoading s0) <$> last (messages s0) = Some (Some "Thinking...")
  /\ bubbleContent false
       <$> last (messages (run s0 ((StreamChunk 0 <$> [{| chunk_text := None |}])
                                   ++ [StreamDone 0])))
     = Some None.
Proof.
  intros s0.
  assert (Henc : forall f, selectedImage helloState = Some f ->
                           is_Some (reader_result f)) by (simpl; discriminate).
  assert (Hfresh : newModelMessageId draws1 ∉ id <$> messages helloState)
    by (apply (bool_decide_unpack _); vm_compute; exact I).
  assert (Hne : newModelMessageId draws1 <> "u1") by (simpl; discriminate).
  destruct (placeholder_bubble helloState "u1" draws1 [{| chunk_text := None |}]
              eq_refl Henc Hfresh Hne) as (H0 & _ & Hn & _).
  split; [exact H0 | exact Hn].
Defined.
